(** * Varvet-Pageable: a shallow embedding of [src/pageable.js]

    The file follows the JavaScript source function by function.  The
    conventions of the embedding:

    - JavaScript numbers that carry scroll travel ([delta], [percentage],
      the easing values) are real numbers; [undefined] and [NaN] are kept
      as separate values where the source can produce them.  Rounding,
      overflow and the infinities of IEEE doubles are outside the model,
      and a division is only meaningful for a non-zero divisor: a
      statement about a quotient carries [pageHeight <> 0], and bounds on
      the momentum curve are stated closed, as they hold on doubles too
      (the curve on doubles is [logistic64]).
    - Page indices, timer handles and clock readings are integers.
    - The object [this], the cell [timeout] captured by the debounce
      closure, and the host (timer tables, clock, the calls made to the
      host's hooks) form one [World], threaded through a state monad with
      exceptions: a thrown error keeps every assignment made before it.
    - Closures handed to the host's timers are defunctionalised: the only
      [setTimeout] callback of the program is [later], the only
      [setInterval] callback is [interpolateBack].
    - The hooks of [settings] are recorded in the order they are called;
      a hook that itself writes to the object is outside the model. *)

From Stdlib Require Import Reals Lra ZArith Lia List String Bool.
From Stdlib Require Import PrimFloat.
Import ListNotations.

Local Open Scope Z_scope.

(** ** JavaScript values *)

Inductive value : Type :=
| VUndefined
| VNaN
| VNum (r : R).

(** A timer handle held in a variable: never assigned, [null], or an id
    returned by [setTimeout]/[setInterval]. *)
Inductive handle : Type :=
| h_undefined
| h_null
| h_id (n : nat).

(** [this.stoppedAtPage] is only ever [null] or [true]. *)
Inductive guard : Type :=
| g_null
| g_true.

Inductive error : Type :=
| ReferenceError (name : string).

(** What [onScroll] hands back: [return false] or falling off the end. *)
Inductive result : Type :=
| r_false
| r_undefined.

Definition Rltb (x y : R) : bool := if Rlt_dec x y then true else false.
Definition Rleb (x y : R) : bool := if Rle_dec x y then true else false.

(** Relational operators against a numeric literal: [undefined] converts
    to [NaN], and every comparison with [NaN] is false. *)
Definition value_gt (v : value) (c : R) : bool :=
  match v with VNum r => Rltb c r | _ => false end.
Definition value_lt (v : value) (c : R) : bool :=
  match v with VNum r => Rltb r c | _ => false end.
Definition value_ge (v : value) (c : R) : bool :=
  match v with VNum r => Rleb c r | _ => false end.
Definition value_le (v : value) (c : R) : bool :=
  match v with VNum r => Rleb r c | _ => false end.

Definition truthy_guard (g : guard) : bool :=
  match g with g_true => true | g_null => false end.

(** [this.disabled] is not set by the constructor: [None] is [undefined]. *)
Definition truthy_flag (d : option bool) : bool :=
  match d with Some b => b | None => false end.

(** ** Settings *)

Record Settings : Type := mkSettings {
  pages : Z;
  pageHeight : R;
  direction : string;
  stopAtPage : bool;
  momentum : bool;
  easeBack : bool;
  eventTimeout : Z
}.

(** The caller's [options] object: any subset of the keys. *)
Record Options : Type := mkOptions {
  o_pages : option Z;
  o_pageHeight : option R;
  o_direction : option string;
  o_stopAtPage : option bool;
  o_momentum : option bool;
  o_easeBack : option bool;
  o_eventTimeout : option Z
}.

Definition no_options : Options :=
  mkOptions None None None None None None None.

Definition defaults : Settings :=
  {| pages := 0;
     pageHeight := 1000%R;
     direction := "deltaY"%string;
     stopAtPage := false;
     momentum := false;
     easeBack := false;
     eventTimeout := 100 |}.

Definition overwrite {A : Type} (a : A) (b : option A) : A :=
  match b with Some x => x | None => a end.

Definition extend (a : Settings) (b : Options) : Settings :=
  {| pages := overwrite (pages a) (o_pages b);
     pageHeight := overwrite (pageHeight a) (o_pageHeight b);
     direction := overwrite (direction a) (o_direction b);
     stopAtPage := overwrite (stopAtPage a) (o_stopAtPage b);
     momentum := overwrite (momentum a) (o_momentum b);
     easeBack := overwrite (easeBack a) (o_easeBack b);
     eventTimeout := overwrite (eventTimeout a) (o_eventTimeout b) |}.

(** ** The object, the host and the world *)

(** A normalized wheel event: [e f] is the number stored under key [f]. *)
Definition Event : Type := string -> R.

Record Pageable : Type := mkPageable {
  page : Z;
  delta : R;
  scrolling : bool;
  stoppedAtPage : guard;
  percentage : value;
  disabled : option bool;
  easeInterval : handle;
  easeStart : option Z;
  easeOrigin : value
}.

(** Calls that leave the object: the event's own [preventDefault] and the
    four hooks of [settings]. *)
Inductive Call : Type :=
| preventDefault
| onScrollStart_cb (p : value) (pg : Z)
| onScroll_cb (p : value) (pg : Z)
| onScrollStop_cb (p : value) (pg : Z)
| onPageChange_cb (prev next : Z).

Record Host : Type := mkHost {
  clock : Z;                      (* what [new Date().getTime()] reads *)
  next_id : nat;                  (* next timer id to hand out *)
  timeouts : list (nat * Z);      (* pending one-shot timers: id, due time *)
  intervals : list (nat * Z);     (* running repeating timers: id, period *)
  calls : list Call;              (* calls made so far, oldest first *)
  stops : list Z                  (* clock readings at which [later] ran *)
}.

Record World : Type := mkWorld {
  self : Pageable;
  timeout : handle;               (* [var timeout] of the debounce closure *)
  host : Host
}.

Definition set_page (v : Z) (o : Pageable) : Pageable :=
  mkPageable v (delta o) (scrolling o) (stoppedAtPage o) (percentage o)
             (disabled o) (easeInterval o) (easeStart o) (easeOrigin o).
Definition set_delta (v : R) (o : Pageable) : Pageable :=
  mkPageable (page o) v (scrolling o) (stoppedAtPage o) (percentage o)
             (disabled o) (easeInterval o) (easeStart o) (easeOrigin o).
Definition set_scrolling (v : bool) (o : Pageable) : Pageable :=
  mkPageable (page o) (delta o) v (stoppedAtPage o) (percentage o)
             (disabled o) (easeInterval o) (easeStart o) (easeOrigin o).
Definition set_stoppedAtPage (v : guard) (o : Pageable) : Pageable :=
  mkPageable (page o) (delta o) (scrolling o) v (percentage o)
             (disabled o) (easeInterval o) (easeStart o) (easeOrigin o).
Definition set_percentage (v : value) (o : Pageable) : Pageable :=
  mkPageable (page o) (delta o) (scrolling o) (stoppedAtPage o) v
             (disabled o) (easeInterval o) (easeStart o) (easeOrigin o).
Definition set_disabled (v : option bool) (o : Pageable) : Pageable :=
  mkPageable (page o) (delta o) (scrolling o) (stoppedAtPage o) (percentage o)
             v (easeInterval o) (easeStart o) (easeOrigin o).
Definition set_easeInterval (v : handle) (o : Pageable) : Pageable :=
  mkPageable (page o) (delta o) (scrolling o) (stoppedAtPage o) (percentage o)
             (disabled o) v (easeStart o) (easeOrigin o).
Definition set_easeStart (v : option Z) (o : Pageable) : Pageable :=
  mkPageable (page o) (delta o) (scrolling o) (stoppedAtPage o) (percentage o)
             (disabled o) (easeInterval o) v (easeOrigin o).
Definition set_easeOrigin (v : value) (o : Pageable) : Pageable :=
  mkPageable (page o) (delta o) (scrolling o) (stoppedAtPage o) (percentage o)
             (disabled o) (easeInterval o) (easeStart o) v.

Definition set_clock (v : Z) (h : Host) : Host :=
  mkHost v (next_id h) (timeouts h) (intervals h) (calls h) (stops h).
Definition set_next_id (v : nat) (h : Host) : Host :=
  mkHost (clock h) v (timeouts h) (intervals h) (calls h) (stops h).
Definition set_timeouts (v : list (nat * Z)) (h : Host) : Host :=
  mkHost (clock h) (next_id h) v (intervals h) (calls h) (stops h).
Definition set_intervals (v : list (nat * Z)) (h : Host) : Host :=
  mkHost (clock h) (next_id h) (timeouts h) v (calls h) (stops h).
Definition set_calls (v : list Call) (h : Host) : Host :=
  mkHost (clock h) (next_id h) (timeouts h) (intervals h) v (stops h).
Definition set_stops (v : list Z) (h : Host) : Host :=
  mkHost (clock h) (next_id h) (timeouts h) (intervals h) (calls h) v.

(** ** The monad: state over [World], with thrown errors *)

Inductive completion (A : Type) : Type :=
| Normal (a : A)
| Thrown (x : error).
Arguments Normal {A} a.
Arguments Thrown {A} x.

Definition M (A : Type) : Type := World -> completion A * World.

Definition ret {A : Type} (a : A) : M A := fun w => (Normal a, w).

Definition bind {A B : Type} (c : M A) (k : A -> M B) : M B :=
  fun w =>
    match c w with
    | (Normal a, w') => k a w'
    | (Thrown x, w') => (Thrown x, w')
    end.

Definition throw {A : Type} (x : error) : M A := fun w => (Thrown x, w).

Declare Scope js_scope.
Delimit Scope js_scope with js.
Notation "x <- c ;; k" := (bind c (fun x => k))
  (at level 61, c at next level, right associativity) : js_scope.
Notation "c ;; k" := (bind c (fun _ => k))
  (at level 61, right associativity) : js_scope.
Local Open Scope js_scope.

Definition this {A : Type} (f : Pageable -> A) : M A :=
  fun w => (Normal (f (self w)), w).

Definition assign (f : Pageable -> Pageable) : M unit :=
  fun w => (Normal tt, mkWorld (f (self w)) (timeout w) (host w)).

Definition read_timeout : M handle := fun w => (Normal (timeout w), w).

Definition write_timeout (h : handle) : M unit :=
  fun w => (Normal tt, mkWorld (self w) h (host w)).

Definition on_host (f : Host -> Host) : M unit :=
  fun w => (Normal tt, mkWorld (self w) (timeout w) (f (host w))).

Definition ask_host {A : Type} (f : Host -> A) : M A :=
  fun w => (Normal (f (host w)), w).

Definition call (c : Call) : M unit :=
  on_host (fun h => set_calls (calls h ++ [c]) h).

Definition when (b : bool) (c : M unit) : M unit :=
  if b then c else ret tt.

(** ** Host primitives *)

Definition Date_getTime : M Z := ask_host clock.

Definition drop_id {A : Type} (n : nat) (l : list (nat * A)) : list (nat * A) :=
  filter (fun p => negb (Nat.eqb (fst p) n)) l.

Definition clearTimeout (h : handle) : M unit :=
  match h with
  | h_id n => on_host (fun s => set_timeouts (drop_id n (timeouts s)) s)
  | _ => ret tt
  end.

Definition setTimeout (wait : Z) : M nat :=
  now <- ask_host clock ;;
  n <- ask_host next_id ;;
  on_host (fun s => set_next_id (S n) (set_timeouts (timeouts s ++ [(n, now + wait)]) s)) ;;
  ret n.

Definition clearInterval (h : handle) : M unit :=
  match h with
  | h_id n => on_host (fun s => set_intervals (drop_id n (intervals s)) s)
  | _ => ret tt
  end.

Definition setInterval (period : Z) : M nat :=
  n <- ask_host next_id ;;
  on_host (fun s => set_next_id (S n) (set_intervals (intervals s ++ [(n, period)]) s)) ;;
  ret n.

(** The identifier [page] in the body of [onScroll] is bound neither in
    that function nor anywhere else in the program: evaluating it
    throws. *)
Definition free_page : M Z := throw (ReferenceError "page").

(** ** The prototype *)

Definition gotoPage (target : Z) : M unit :=
  prevPage <- this page ;;
  assign (set_page target) ;;
  pg <- this page ;;
  call (onPageChange_cb prevPage pg) ;;
  assign (set_percentage (VNum 0)) ;;
  assign (set_delta 0) ;;
  assign (set_stoppedAtPage g_true).

Definition enable : M unit := assign (set_disabled (Some false)).

Definition disable : M unit := assign (set_disabled (Some true)).

Definition onScrollStart (e : Event) : M unit :=
  assign (set_scrolling true) ;;
  assign (set_delta 0) ;;
  p <- this percentage ;;
  pg <- this page ;;
  call (onScrollStart_cb p pg).

(** [easeOut] on numbers.  The source reassigns [t] inside the first
    factor, so all five factors are [t/d - 1]. *)
Definition easeOut (t b c d : R) : R :=
  let t' := (t / d - 1)%R in
  (c * (t' * t' * t' * t' * t' + 1) + b)%R.

Definition to_number (v : value) : option R :=
  match v with VNum r => Some r | _ => None end.

(** [easeOut(now, origin, -origin, 300)] on values: any [NaN] operand
    makes the result [NaN]. *)
Definition easeOut_back (now : option Z) (origin : value) : value :=
  match now, to_number origin with
  | Some n, Some b => VNum (easeOut (IZR n) b (- b) 300)
  | _, _ => VNaN
  end.

Definition startEasing : M unit :=
  h <- this easeInterval ;;
  clearInterval h ;;
  assign (set_delta 0) ;;
  t <- Date_getTime ;;
  assign (set_easeStart (Some t)) ;;
  p <- this percentage ;;
  assign (set_easeOrigin p) ;;
  n <- setInterval 16 ;;
  assign (set_easeInterval (h_id n)).

Definition interpolateBack : M unit :=
  t <- Date_getTime ;;
  s <- this easeStart ;;
  let elapsed := option_map (fun s0 => t - s0) s in
  now <- match elapsed with
         | Some n =>
             if 300 <? n
             then (h <- this easeInterval ;; clearInterval h ;; ret (Some 300))
             else ret (Some n)
         | None => ret None
         end ;;
  o <- this easeOrigin ;;
  assign (set_percentage (easeOut_back now o)) ;;
  p <- this percentage ;;
  pg <- this page ;;
  call (onScroll_cb p pg).

(** The prototype's [onScrollStop]: what runs when scrolling has ceased. *)
Definition onScrollStop (cfg : Settings) : M unit :=
  g <- this stoppedAtPage ;;
  when (truthy_guard g) (assign (set_stoppedAtPage g_null)) ;;
  if easeBack cfg then startEasing
  else
    p <- this percentage ;;
    pg <- this page ;;
    call (onScrollStop_cb p pg) ;;
    assign (set_delta 0) ;;
    assign (set_scrolling false).

(** *** debounce *)

Section Debounce.

Variable func : M unit.
Variable wait : Z.

Definition later : M unit :=
  write_timeout h_null ;;
  t <- Date_getTime ;;
  on_host (fun s => set_stops (stops s ++ [t]) s) ;;
  func.

Definition debounce : M unit :=
  h <- read_timeout ;;
  clearTimeout h ;;
  n <- setTimeout wait ;;
  write_timeout (h_id n).

End Debounce.

(** The instance property installed by the constructor:
    [that.onScrollStop = that.debounce(that.onScrollStop, eventTimeout, that)]. *)
Definition onScrollStop_debounced (cfg : Settings) : M unit :=
  debounce (eventTimeout cfg).

Definition Math_E : R := exp 1.
Definition Math_pow (x y : R) : R := Rpower x y.

(** [1/(1+Math.pow(Math.E,-percentage)) - 0.5], as the exact real value;
    the same line on doubles is [logistic64]. *)
Definition logistic (p : value) : value :=
  match p with
  | VNum r => VNum (1 / (1 + Math_pow Math_E (- r)) - 5 / 10)
  | _ => VNaN
  end.

Definition onScroll (cfg : Settings) (e : Event) : M result :=
  call preventDefault ;;
  d <- this disabled ;;
  if truthy_flag d then ret r_false
  else
    onScrollStop_debounced cfg ;;
    g <- this stoppedAtPage ;;
    if stopAtPage cfg && truthy_guard g then ret r_false
    else
      s <- this scrolling ;;
      when (negb s) (onScrollStart e) ;;
      acc <- this delta ;;
      assign (set_delta (acc + e (direction cfg))) ;;
      acc' <- this delta ;;
      assign (set_percentage (VNum (acc' / pageHeight cfg))) ;;
      pg <- this page ;;
      p <- this percentage ;;
      when (momentum cfg &&
            ((Z.eqb pg (pages cfg - 1) && value_gt p 0)
             || (Z.eqb pg 0 && value_lt p 0)))
           (assign (set_percentage (logistic p))) ;;
      p1 <- this percentage ;;
      pg1 <- this page ;;
      when (value_ge p1 1 && Z.ltb pg1 (pages cfg - 1))
           (x <- free_page ;; gotoPage (x + 1)) ;;
      p2 <- this percentage ;;
      pg2 <- this page ;;
      when (value_le p2 (-1) && Z.ltb 0 pg2)
           (x <- free_page ;; gotoPage (x - 1)) ;;
      p3 <- this percentage ;;
      pg3 <- this page ;;
      call (onScroll_cb p3 pg3) ;;
      ret r_undefined.

(** ** Construction *)

Definition fresh_object : Pageable :=
  {| page := 0;
     delta := 0;
     scrolling := false;
     stoppedAtPage := g_null;
     percentage := VUndefined;
     disabled := None;
     easeInterval := h_undefined;
     easeStart := None;
     easeOrigin := VUndefined |}.

Definition fresh_host (now : Z) : Host :=
  {| clock := now; next_id := O; timeouts := []; intervals := [];
     calls := []; stops := [] |}.

(** [new Pageable(options)], run when the host clock reads [now]. *)
Definition construct (options : Options) (now : Z) : Settings * World :=
  (extend defaults options, mkWorld fresh_object h_undefined (fresh_host now)).

(** ** The host's event loop

    Wheel events and interval ticks arrive with a clock reading.  Before
    an input is dispatched, every one-shot timer that has come due runs,
    each at its own due time.  An error thrown by a listener is reported
    by the host and does not stop the loop. *)

Inductive input : Type :=
| Wheel (e : Event)
| Tick (id : nat).

Definition guarded {A : Type} (c : M A) : M unit :=
  fun w => (Normal tt, snd (c w)).

Definition pending {A : Type} (n : nat) (l : list (nat * A)) : bool :=
  existsb (fun p => Nat.eqb (fst p) n) l.

Definition fire_timeout (cfg : Settings) (p : nat * Z) : M unit :=
  l <- ask_host timeouts ;;
  when (pending (fst p) l)
       (on_host (fun s => set_timeouts (drop_id (fst p) (timeouts s)) s) ;;
        on_host (fun s => set_clock (Z.max (clock s) (snd p)) s) ;;
        guarded (later (onScrollStop cfg))).

Fixpoint fire_timeouts (cfg : Settings) (l : list (nat * Z)) : M unit :=
  match l with
  | [] => ret tt
  | p :: l' => fire_timeout cfg p ;; fire_timeouts cfg l'
  end.

Definition due (t : Z) (p : nat * Z) : bool := snd p <=? t.

(** Let the clock reach [t]: run what is due by then. *)
Definition advance (cfg : Settings) (t : Z) : M unit :=
  l <- ask_host timeouts ;;
  fire_timeouts cfg (filter (due t) l) ;;
  on_host (fun s => set_clock (Z.max (clock s) t) s).

Definition dispatch (cfg : Settings) (i : input) : M unit :=
  match i with
  | Wheel e => guarded (onScroll cfg e)
  | Tick id =>
      l <- ask_host intervals ;;
      when (pending id l) (guarded interpolateBack)
  end.

Definition deliver (cfg : Settings) (ti : Z * input) : M unit :=
  advance cfg (fst ti) ;;
  dispatch cfg (snd ti).

Fixpoint run (cfg : Settings) (l : list (Z * input)) : M unit :=
  match l with
  | [] => ret tt
  | ti :: l' => deliver cfg ti ;; run cfg l'
  end.

(** The world after a computation; the hooks among the calls made. *)
Definition after {A : Type} (c : M A) (w : World) : World := snd (c w).

Definition outcome {A : Type} (c : M A) (w : World) : completion A := fst (c w).

Definition is_hook (c : Call) : bool :=
  match c with preventDefault => false | _ => true end.

Definition hooks (w : World) : list Call := filter is_hook (calls (host w)).

Definition is_onScroll (c : Call) : bool :=
  match c with onScroll_cb _ _ => true | _ => false end.

Definition is_onScrollStop (c : Call) : bool :=
  match c with onScrollStop_cb _ _ => true | _ => false end.

Definition is_onPageChange (c : Call) : bool :=
  match c with onPageChange_cb _ _ => true | _ => false end.

Definition count (f : Call -> bool) (w : World) : nat :=
  List.length (filter f (calls (host w))).

(** A wheel event that stores [d] under every key. *)
Definition wheel (d : R) : Event := fun _ => d.

(** The delta accumulated by a handled event [e]: [onScrollStart] zeroes
    [this.delta] first when the object was not scrolling. *)
Definition travel (cfg : Settings) (e : Event) (w : World) : R :=
  ((if scrolling (self w) then delta (self w) else 0) + e (direction cfg))%R.

(** A wheel event is handled when neither early [return false] is taken. *)
Definition handled (cfg : Settings) (w : World) : bool :=
  negb (truthy_flag (disabled (self w)))
  && negb (stopAtPage cfg && truthy_guard (stoppedAtPage (self w))).

(** Wheel events delivered back to back, no timer running in between. *)
Fixpoint scrolls (cfg : Settings) (es : list Event) : M unit :=
  match es with
  | [] => ret tt
  | e :: es' => guarded (onScroll cfg e) ;; scrolls cfg es'
  end.

(** Calls of the debounced stop detector at the clock readings [ts]. *)
Fixpoint burst (cfg : Settings) (ts : list Z) : M unit :=
  match ts with
  | [] => ret tt
  | t :: ts' => advance cfg t ;; onScrollStop_debounced cfg ;; burst cfg ts'
  end.

(** Each reading follows the one before by less than [wait]. *)
Fixpoint spaced (wait : Z) (t : Z) (ts : list Z) : Prop :=
  match ts with
  | [] => True
  | t' :: ts' => t <= t' < t + wait /\ spaced wait t' ts'
  end.

(** The one-shot timer table holds at most the timer of the debounce
    closure: the program has no other [setTimeout]. *)
Definition owned (w : World) : Prop :=
  match timeouts (host w) with
  | [] => True
  | [p] => timeout w = h_id (fst p)
  | _ => False
  end.

Definition in_range (cfg : Settings) (w : World) : Prop :=
  0 <= page (self w) <= pages cfg - 1.

(** A computation that leaves [this.page] and the [onPageChange] hook alone. *)
Definition keeps_page {A : Type} (c : M A) : Prop :=
  forall w, page (self (after c w)) = page (self w)
            /\ count is_onPageChange (after c w) = count is_onPageChange w.

(** A computation that stays out of the debounce machinery. *)
Definition keeps_timeouts {A : Type} (c : M A) : Prop :=
  forall w, timeouts (host (after c w)) = timeouts (host w)
            /\ timeout (after c w) = timeout w
            /\ clock (host (after c w)) = clock (host w)
            /\ stops (host (after c w)) = stops (host w).

(** [{ pages: 2 }] and [{ pages: 2, stopAtPage: true }]. *)
Definition two_pages : Options :=
  mkOptions (Some 2) None None None None None None.

Definition two_pages_locking : Options :=
  mkOptions (Some 2) None None (Some true) None None None.

(** The percentage a handled event leaves in [this.percentage]: the
    linear travel, compressed by the momentum curve at a boundary page. *)
Definition adjusted (cfg : Settings) (e : Event) (w : World) : value :=
  let p := VNum (travel cfg e w / pageHeight cfg) in
  if momentum cfg
     && ((Z.eqb (page (self w)) (pages cfg - 1) && value_gt p 0)
         || (Z.eqb (page (self w)) 0 && value_lt p 0))
  then logistic p
  else p.

(** The two tests that guard the calls of [gotoPage] in [onScroll]. *)
Definition at_threshold (cfg : Settings) (e : Event) (w : World) : bool :=
  (value_ge (adjusted cfg e w) 1 && Z.ltb (page (self w)) (pages cfg - 1))
  || (value_le (adjusted cfg e w) (-1) && Z.ltb 0 (page (self w))).

Definition is_onScrollStart (c : Call) : bool :=
  match c with onScrollStart_cb _ _ => true | _ => false end.

(** When the stop effect runs for calls of the debounced function at the
    clock readings [t], [ts]: a timer that is due when the next call comes
    runs before it, and the last call's timer always runs. *)
Fixpoint firings (wait : Z) (t : Z) (ts : list Z) : list Z :=
  match ts with
  | [] => [t + wait]
  | t' :: ts' =>
      if t + wait <=? t' then (t + wait) :: firings wait t' ts'
      else firings wait t' ts'
  end.

Fixpoint ascending (t : Z) (ts : list Z) : Prop :=
  match ts with
  | [] => True
  | t' :: ts' => t <= t' /\ ascending t' ts'
  end.

(** A property of worlds that a computation carries over. *)
Definition stable {A : Type} (P : World -> Prop) (c : M A) : Prop :=
  forall w, P w -> P (after c w).

(** The repeating-timer table holds at most the interval stored in
    [this.easeInterval]. *)
Definition one_interval (w : World) : Prop :=
  match intervals (host w) with
  | [] => True
  | [p] => easeInterval (self w) = h_id (fst p)
  | _ => False
  end.

(** Wheel events with their clock readings, as inputs of the loop. *)
Definition wheels (l : list (Z * Event)) : list (Z * input) :=
  map (fun te => (fst te, Wheel (snd te))) l.

(** ** Lines 167 and 174 in double precision

    The momentum line is the one place where the rounding of IEEE doubles
    decides a property, so it is also given on primitive doubles.
    [Math.pow] belongs to the host: [v] stands for the double it returned
    for [Math.pow(Math.E, -percentage)]. *)
Definition percentage64 (delta pageHeight : float) : float :=
  (delta / pageHeight)%float.

Definition logistic64 (v : float) : float :=
  (1 / (1 + v) - 0.5)%float.

(** The world in which the stop effect of a burst of [k] debounced calls
    runs: the object and the calls as the burst found them, the clock at
    [d], [k] timer ids handed out, no timer pending, [timeout] reset. *)
Definition stop_point (w : World) (d : Z) (k : nat) : World :=
  mkWorld (self w) h_null
          (mkHost d (next_id (host w) + k)%nat [] (intervals (host w))
                  (calls (host w)) (stops (host w) ++ [d])).

(** * Properties *)

(** ** Comparisons on reals *)

Lemma Rltb_true (x y : R) : (x < y)%R -> Rltb x y = true.
Proof. intros H. unfold Rltb. destruct (Rlt_dec x y); [reflexivity | contradiction]. Qed.

Lemma Rltb_false (x y : R) : (y <= x)%R -> Rltb x y = false.
Proof. intros H. unfold Rltb. destruct (Rlt_dec x y); [lra | reflexivity]. Qed.

Lemma Rleb_true (x y : R) : (x <= y)%R -> Rleb x y = true.
Proof. intros H. unfold Rleb. destruct (Rle_dec x y); [reflexivity | contradiction]. Qed.

Lemma Rleb_false (x y : R) : (y < x)%R -> Rleb x y = false.
Proof. intros H. unfold Rleb. destruct (Rle_dec x y); [lra | reflexivity]. Qed.

Lemma Rltb_spec (x y : R) : Rltb x y = true <-> (x < y)%R.
Proof. unfold Rltb. destruct (Rlt_dec x y); split; intros; [assumption | reflexivity | discriminate | contradiction]. Qed.

(** ** The easing function *)

Lemma easeOut_start (b c d : R) : d <> 0%R -> easeOut 0 b c d = b.
Proof. intros Hd. unfold easeOut. field. assumption. Qed.

Lemma easeOut_end (b c d : R) : d <> 0%R -> easeOut d b c d = (b + c)%R.
Proof. intros Hd. unfold easeOut. field. assumption. Qed.

(** C8. For all numbers [b], [c] and every [d > 0]:
    [easeOut(0, b, c, d) = b] and [easeOut(d, b, c, d) = b + c]. *)
Theorem easeOut_boundary (b c d : R) :
  (0 < d)%R ->
  easeOut 0 b c d = b /\ easeOut d b c d = (b + c)%R.
Proof.
  intros Hd. assert (d <> 0%R) by lra.
  split; [apply easeOut_start | apply easeOut_end]; assumption.
Qed.

Lemma easeOut_boundary_witness :
  (0 < 300)%R /\
  easeOut 0 (1 / 2) (- (1 / 2)) 300 = (1 / 2)%R /\
  easeOut 300 (1 / 2) (- (1 / 2)) 300 = (1 / 2 + - (1 / 2))%R.
Proof. split; [lra | apply easeOut_boundary; lra]. Defined.

(** ** The momentum curve *)

Lemma Math_pow_E (y : R) : Math_pow Math_E y = exp y.
Proof.
  unfold Math_pow, Math_E, Rpower. rewrite ln_exp. f_equal. ring.
Qed.

Lemma exp_neg_below_one (r : R) : (0 < r)%R -> (0 < exp (- r) < 1)%R.
Proof.
  intros Hr. split; [apply exp_pos |].
  rewrite <- exp_0. apply exp_increasing. lra.
Qed.

Lemma logistic_positive (r : R) :
  (0 < r)%R ->
  exists q, logistic (VNum r) = VNum q /\ (0 < q < 1 / 2)%R.
Proof.
  intros Hr. unfold logistic. rewrite Math_pow_E.
  destruct (exp_neg_below_one r Hr) as [H0 H1].
  eexists; split; [reflexivity |].
  set (x := exp (- r)) in *.
  assert (Hd : (0 < 1 + x)%R) by lra.
  assert (Hi : (/ 2 < / (1 + x))%R) by (apply Rinv_lt_contravar; nra).
  assert (Hj : (/ (1 + x) < / 1)%R) by (apply Rinv_lt_contravar; nra).
  rewrite Rinv_1 in Hj. unfold Rdiv. lra.
Qed.

(** ** Symbolic execution of the prototype *)

Ltac expose w :=
  destruct w as [[pg dl sc gd pc ds ei es eo] tm [ck ni tos ivs cl sp]].

Ltac js_unfold :=
  cbv [onScroll onScrollStop_debounced debounce later onScrollStop
       onScrollStart gotoPage startEasing interpolateBack free_page enable
       disable setTimeout clearTimeout setInterval clearInterval Date_getTime
       call when this assign read_timeout write_timeout on_host ask_host
       bind ret throw after outcome guarded hooks count handled travel].

Ltac js_cases :=
  repeat match goal with
         | |- context [if ?b then _ else _] => destruct b eqn:?; cbn
         | |- context [match ?h with h_undefined => _ | _ => _ end] =>
             destruct h; cbn
         | |- context [match ?g with g_null => _ | g_true => _ end] =>
             destruct g; cbn
         | |- context [match ?s with Some _ => _ | None => _ end] =>
             destruct s; cbn
         end.

Lemma filter_app_one {A : Type} (f : A -> bool) (l : list A) (x : A) :
  filter f (l ++ [x]) = filter f l ++ (if f x then [x] else []).
Proof. rewrite filter_app. reflexivity. Qed.

(** *** Disabled: the first early return *)

Lemma onScroll_disabled cfg e w :
  truthy_flag (disabled (self w)) = true ->
  onScroll cfg e w =
  (Normal r_false,
   mkWorld (self w) (timeout w)
           (set_calls (calls (host w) ++ [preventDefault]) (host w))).
Proof.
  intros H. js_unfold. cbn. rewrite H. reflexivity.
Qed.

(** C9. While the controller is disabled, [onScroll] returns at once with
    [false]: no field of the object changes, no timer is touched, no hook
    of the host is invoked, and nothing is thrown. *)
Theorem onScroll_disabled_noop cfg e w :
  truthy_flag (disabled (self w)) = true ->
  outcome (onScroll cfg e) w = Normal r_false
  /\ self (after (onScroll cfg e) w) = self w
  /\ timeout (after (onScroll cfg e) w) = timeout w
  /\ timeouts (host (after (onScroll cfg e) w)) = timeouts (host w)
  /\ intervals (host (after (onScroll cfg e) w)) = intervals (host w)
  /\ hooks (after (onScroll cfg e) w) = hooks w.
Proof.
  intros H. unfold outcome, after, hooks.
  rewrite (onScroll_disabled cfg e w H). cbn.
  rewrite filter_app_one. cbn. rewrite app_nil_r. repeat split; reflexivity.
Qed.

Lemma onScroll_disabled_noop_witness :
  let cfg := fst (construct no_options 0) in
  let w := after disable (snd (construct no_options 0)) in
  truthy_flag (disabled (self w)) = true
  /\ outcome (onScroll cfg (wheel 120)) w = Normal r_false
  /\ self (after (onScroll cfg (wheel 120)) w) = self w
  /\ timeout (after (onScroll cfg (wheel 120)) w) = timeout w
  /\ timeouts (host (after (onScroll cfg (wheel 120)) w)) = timeouts (host w)
  /\ intervals (host (after (onScroll cfg (wheel 120)) w)) = intervals (host w)
  /\ hooks (after (onScroll cfg (wheel 120)) w) = hooks w.
Proof.
  split; [reflexivity | apply onScroll_disabled_noop; reflexivity].
Defined.

(** *** The first event after construction *)

(** C10. The constructor leaves [percentage] unassigned, and the first
    wheel event makes [onScrollStart] hand that [undefined] to the host's
    [onScrollStart] hook, before any other hook is called. *)
Theorem first_onScrollStart_sees_undefined options now e :
  let cfg := fst (construct options now) in
  let w0 := snd (construct options now) in
  percentage (self w0) = VUndefined
  /\ page (self w0) = 0
  /\ delta (self w0) = 0%R
  /\ scrolling (self w0) = false
  /\ stoppedAtPage (self w0) = g_null
  /\ exists rest,
       hooks (after (onScroll cfg e) w0) = onScrollStart_cb VUndefined 0 :: rest.
Proof.
  cbn. repeat split.
  js_unfold. cbn. rewrite andb_false_r. cbn.
  js_cases; eexists; reflexivity.
Qed.

(** *** The stop effect *)

(** C6. When the stop effect runs with [easeBack] set, no hook is called
    and the easing animation is started: a 16 ms interval is registered
    and stored, the start time and the origin are recorded.  Without
    [easeBack] the host's [onScrollStop] is called with the current
    percentage and page, [delta] becomes 0 and [scrolling] false. *)
Theorem onScrollStop_effect cfg w :
  let w' := after (onScrollStop cfg) w in
  if easeBack cfg
  then calls (host w') = calls (host w)
       /\ easeInterval (self w') = h_id (next_id (host w))
       /\ In (next_id (host w), 16) (intervals (host w'))
       /\ easeStart (self w') = Some (clock (host w))
       /\ easeOrigin (self w') = percentage (self w)
       /\ percentage (self w') = percentage (self w)
       /\ delta (self w') = 0%R
  else calls (host w') =
         calls (host w) ++ [onScrollStop_cb (percentage (self w)) (page (self w))]
       /\ delta (self w') = 0%R
       /\ scrolling (self w') = false
       /\ intervals (host w') = intervals (host w).
Proof.
  expose w. js_unfold. cbn.
  destruct (easeBack cfg); destruct gd; cbn;
    try (repeat split; reflexivity);
    destruct ei; cbn; repeat split; try reflexivity;
    apply in_or_app; right; left; reflexivity.
Qed.

(** *** Handled events *)

#[local] Arguments Rltb : simpl never.
#[local] Arguments Rleb : simpl never.
#[local] Arguments logistic : simpl never.

Ltac calls_done :=
  rewrite ?filter_app; cbn; rewrite ?app_nil_r; try reflexivity.

Lemma handled_true cfg w :
  handled cfg w = true ->
  truthy_flag (disabled (self w)) = false
  /\ stopAtPage cfg && truthy_guard (stoppedAtPage (self w)) = false.
Proof.
  unfold handled. intros H. apply andb_prop in H. destruct H as [H1 H2].
  apply negb_true_iff in H1. apply negb_true_iff in H2. split; assumption.
Qed.

(** No wheel event ever reaches [gotoPage]. *)
Lemma onScroll_keeps_page cfg e : keeps_page (onScroll cfg e).
Proof.
  intros w. expose w. js_unfold. cbn.
  js_cases; split; try reflexivity; calls_done.
Qed.

(** An event that is handled accumulates its delta, whatever follows. *)
Lemma onScroll_accepts cfg e w :
  handled cfg w = true ->
  outcome (onScroll cfg e) w <> Normal r_false
  /\ delta (self (after (onScroll cfg e) w)) = travel cfg e w
  /\ scrolling (self (after (onScroll cfg e) w)) = true.
Proof.
  intros H. destruct (handled_true _ _ H) as [H1 H2]. clear H.
  revert H1 H2. expose w. js_unfold. cbn. intros H1 H2.
  destruct tm; cbn; rewrite H1; cbn; rewrite H2; cbn;
    destruct sc; cbn; js_cases; repeat split; try discriminate; reflexivity.
Qed.

(** When [onScroll] runs to its end, the host's [onScroll] was called once,
    last, with the final percentage and page; when it throws, not at all. *)
Lemma onScroll_hook cfg e w :
  let w' := after (onScroll cfg e) w in
  match outcome (onScroll cfg e) w with
  | Normal r_undefined =>
      count is_onScroll w' = S (count is_onScroll w)
      /\ exists l,
           calls (host w') =
           l ++ [onScroll_cb (percentage (self w')) (page (self w'))]
  | _ => count is_onScroll w' = count is_onScroll w
  end.
Proof.
  expose w. js_unfold. cbn.
  js_cases; calls_done;
    (split; [rewrite length_app; cbn; lia | eexists; reflexivity]).
Qed.

(** The forward threshold, reached below the last page, throws. *)
Lemma onScroll_turn_throws cfg e w :
  handled cfg w = true ->
  momentum cfg = false ->
  (1 <= travel cfg e w / pageHeight cfg)%R ->
  page (self w) < pages cfg - 1 ->
  outcome (onScroll cfg e) w = Thrown (ReferenceError "page").
Proof.
  intros H Hm Hq Hp. destruct (handled_true _ _ H) as [H1 H2]. clear H.
  apply Rleb_true in Hq. apply Z.ltb_lt in Hp.
  revert H1 H2 Hq Hp. expose w. js_unfold. cbn. intros H1 H2 Hq Hp.
  destruct tm; cbn; rewrite H1; cbn; rewrite H2; cbn;
    destruct sc; cbn in *; rewrite Hm; cbn; rewrite Hq; cbn;
    rewrite Hp; cbn; reflexivity.
Qed.

(** *** Momentum at the last page *)

(** C3 (amended).  With momentum on and the controller at the last page,
    a handled event whose accumulated delta is positive leaves a
    percentage above -0.5 and at most 0.5 (the logistic image of
    delta/pageHeight), and no page change follows: [onScroll] runs to its
    end, the page is the same and [onPageChange] is not called. *)
Theorem momentum_last_page_bounded cfg e w :
  momentum cfg = true ->
  (0 < pageHeight cfg)%R ->
  page (self w) = pages cfg - 1 ->
  handled cfg w = true ->
  (0 < travel cfg e w)%R ->
  let w' := after (onScroll cfg e) w in
  exists q,
    logistic (VNum (travel cfg e w / pageHeight cfg)) = VNum q
    /\ percentage (self w') = VNum q
    /\ (- (1 / 2) < q <= 1 / 2)%R
    /\ outcome (onScroll cfg e) w = Normal r_undefined
    /\ page (self w') = page (self w)
    /\ count is_onPageChange w' = count is_onPageChange w
    /\ exists l, calls (host w') = l ++ [onScroll_cb (VNum q) (page (self w))].
Proof.
  intros Hm Hh Hp Hd Ht.
  assert (Hq : (0 < travel cfg e w / pageHeight cfg)%R)
    by (apply Rdiv_lt_0_compat; assumption).
  destruct (logistic_positive _ Hq) as [q [Hl Hb]].
  exists q. split; [assumption |].
  destruct (handled_true _ _ Hd) as [Hd1 Hd2].
  revert Hl Hq Hd1 Hd2 Hp. clear Hd Ht. expose w. js_unfold. cbn.
  intros Hl Hq Hd1 Hd2 Hp. subst pg.
  assert (H1 : Rleb 1 q = false) by (apply Rleb_false; lra).
  assert (H2 : Rleb q (-1) = false) by (apply Rleb_false; lra).
  destruct tm; cbn; rewrite Hd1; cbn; rewrite Hd2; cbn;
    destruct sc; cbn in *; rewrite Hm, Z.eqb_refl; cbn;
    rewrite (Rltb_true _ _ Hq); cbn; rewrite Hl; cbn;
    rewrite H1; cbn; rewrite H2; cbn;
    (repeat split; try reflexivity; try lra;
     [calls_done | eexists; reflexivity]).
Qed.

Lemma momentum_last_page_bounded_witness :
  let cfg := mkSettings 3 1000 "deltaY" false true false 100 in
  let w := after (gotoPage 2) (snd (construct no_options 0)) in
  let e := wheel 5000 in
  momentum cfg = true
  /\ (0 < pageHeight cfg)%R
  /\ page (self w) = pages cfg - 1
  /\ handled cfg w = true
  /\ (0 < travel cfg e w)%R
  /\ exists q,
       logistic (VNum (travel cfg e w / pageHeight cfg)) = VNum q
       /\ percentage (self (after (onScroll cfg e) w)) = VNum q
       /\ (- (1 / 2) < q <= 1 / 2)%R
       /\ outcome (onScroll cfg e) w = Normal r_undefined
       /\ page (self (after (onScroll cfg e) w)) = page (self w)
       /\ count is_onPageChange (after (onScroll cfg e) w)
          = count is_onPageChange w
       /\ exists l,
            calls (host (after (onScroll cfg e) w)) =
            l ++ [onScroll_cb (VNum q) (page (self w))].
Proof.
  assert (H : (0 < travel (mkSettings 3 1000 "deltaY" false true false 100)
                     (wheel 5000)
                     (after (gotoPage 2) (snd (construct no_options 0))))%R)
    by (unfold travel, wheel; cbn; lra).
  split; [reflexivity |].
  split; [cbn; lra |].
  split; [reflexivity |].
  split; [reflexivity |].
  split; [exact H |].
  apply momentum_last_page_bounded;
    [reflexivity | cbn; lra | reflexivity | reflexivity | exact H].
Defined.

(** *** The upper bound is reached in double precision *)

Lemma exp_INR_mult (x : R) (n : nat) : (exp (INR n * x) = exp x ^ n)%R.
Proof.
  induction n as [| n IH].
  - cbn [INR pow]. rewrite Rmult_0_l. apply exp_0.
  - rewrite S_INR, Rmult_plus_distr_r, Rmult_1_l, exp_plus, IH.
    cbn [pow]. ring.
Qed.

(** [e^-1000] lies strictly between 0 and [2^-1074], the least positive
    double: the two doubles next to it are [0] and [0x1p-1074]. *)
Lemma exp_neg_1000_below_least_double :
  (0 < exp (- 1000) < / 2 ^ 1074)%R.
Proof.
  split; [apply exp_pos |].
  assert (H1 : (3 / 2 < exp (1 / 2))%R).
  { pose proof (exp_ineq1 (1 / 2)) as H. lra. }
  assert (H2 : (exp 1000 = exp (1 / 2) ^ 2000)%R).
  { rewrite <- exp_INR_mult. f_equal.
    replace (INR 2000) with 2000%R by (rewrite INR_IZR_INZ; reflexivity). lra. }
  assert (H3 : (2 ^ 7 <= (3 / 2) ^ 12)%R) by (cbn [pow]; lra).
  assert (H4 : ((2 ^ 7) ^ 166 <= ((3 / 2) ^ 12) ^ 166)%R).
  { apply pow_incr. split; [apply pow_le; lra | exact H3]. }
  rewrite <- !pow_mult in H4.
  assert (H5 : ((3 / 2) ^ (12 * 166) <= (3 / 2) ^ 2000)%R)
    by (apply Rle_pow; [lra | apply Nat.leb_le; reflexivity]).
  assert (H6 : ((3 / 2) ^ 2000 <= exp (1 / 2) ^ 2000)%R)
    by (apply pow_incr; lra).
  assert (H7 : (2 ^ 1074 < 2 ^ (7 * 166))%R).
  { apply Rlt_pow; [lra | apply Nat.ltb_lt; reflexivity]. }
  assert (H8 : (2 ^ 1074 < exp 1000)%R) by (rewrite H2; lra).
  replace (-1000)%R with (Ropp 1000) by lra.
  rewrite exp_Ropp. apply Rinv_lt_contravar; [| exact H8].
  apply Rmult_lt_0_compat; [apply pow_lt; lra | apply exp_pos].
Qed.

(** C3 as first stated, with the upper bound strict, fails on doubles.
    One wheel event with [deltaY = 1000000] at [pageHeight = 1000] gives
    the percentage 1000, which is positive, so at the last page line 174
    applies.  [Math.pow(Math.E, -1000)] is [0] or, at most, the least
    positive double (the exact power lies between them,
    [exp_neg_1000_below_least_double]); with either, line 174 evaluates
    to exactly 0.5, which is not below 0.5. *)
Lemma momentum_reaches_half_in_doubles :
  percentage64 1000000 1000 = 1000%float
  /\ PrimFloat.ltb 0 (percentage64 1000000 1000) = true
  /\ logistic64 0 = 0.5%float
  /\ logistic64 0x1p-1074 = 0.5%float
  /\ PrimFloat.ltb (logistic64 0) 0.5 = false
  /\ PrimFloat.ltb (logistic64 0x1p-1074) 0.5 = false
  /\ PrimFloat.leb 1 (logistic64 0) = false.
Proof. repeat split; reflexivity. Qed.

(** *** A full page of travel on the first of two pages *)

Ltac js_start :=
  cbv [deliver run advance dispatch fire_timeouts fire_timeout wheel
       construct fresh_object fresh_host extend defaults overwrite
       two_pages two_pages_locking no_options fst snd].

Lemma full_page_event_eval :
  let cfg := fst (construct two_pages 0) in
  let w0 := snd (construct two_pages 0) in
  onScroll cfg (wheel 1000) w0 =
  (Thrown (ReferenceError "page"),
   mkWorld
     (mkPageable 0 (0 + 1000) true g_null (VNum ((0 + 1000) / 1000)) None
                 h_undefined None VUndefined)
     (h_id 0)
     (mkHost 0 1 [(O, 100)] []
             [preventDefault; onScrollStart_cb VUndefined 0] [])).
Proof.
  js_start. js_unfold. cbn.
  rewrite (Rleb_true 1 ((0 + 1000) / 1000)) by lra. cbn. reflexivity.
Qed.

(** C1 (the code departs from the claim).  Two pages, no momentum, page 0:
    wheel events of 400 and 600 add up to [pageHeight] = 1000, yet the
    second one throws on the unbound identifier [page]; the controller
    stays on page 0 and [onPageChange] is never called. *)
Theorem full_page_in_two_events_stays_on_first_page :
  let cfg := fst (construct two_pages 0) in
  let w0 := snd (construct two_pages 0) in
  let w1 := after (deliver cfg (0, Wheel (wheel 400))) w0 in
  let w2 := after (deliver cfg (10, Wheel (wheel 600))) w1 in
  pages cfg = 2 /\ momentum cfg = false /\ pageHeight cfg = 1000%R
  /\ page (self w0) = 0
  /\ outcome (onScroll cfg (wheel 400)) w0 = Normal r_undefined
  /\ delta (self w2) = (0 + 400 + 600)%R
  /\ outcome (onScroll cfg (wheel 600)) (after (advance cfg 10) w1)
     = Thrown (ReferenceError "page")
  /\ page (self w2) = 0
  /\ count is_onPageChange w2 = O
  /\ w2 = after (run cfg [(0, Wheel (wheel 400)); (10, Wheel (wheel 600))]) w0.
Proof.
  js_start. js_unfold. cbn.
  rewrite (Rleb_false 1 ((0 + 400) / 1000)) by lra. cbn.
  rewrite (Rleb_false ((0 + 400) / 1000) (-1)) by lra. cbn.
  rewrite (Rleb_true 1 ((0 + 400 + 600) / 1000)) by lra. cbn.
  repeat split; reflexivity.
Qed.

(** C4 (the code departs from the claim).  The event of
    [full_page_event_eval] is handled, neither disabled nor locked, but
    [onScroll] throws at the forward page-transition check and the host's
    [onScroll] hook is not called for it. *)
Theorem full_page_event_skips_onScroll_hook :
  let cfg := fst (construct two_pages 0) in
  let w0 := snd (construct two_pages 0) in
  let w1 := after (onScroll cfg (wheel 1000)) w0 in
  handled cfg w0 = true
  /\ outcome (onScroll cfg (wheel 1000)) w0 = Thrown (ReferenceError "page")
  /\ percentage (self w1) = VNum ((0 + 1000) / 1000)
  /\ count is_onScroll w1 = O
  /\ hooks w1 = [onScrollStart_cb VUndefined 0].
Proof.
  cbv zeta. unfold after, outcome, count, hooks.
  rewrite full_page_event_eval. cbn. repeat split; reflexivity.
Qed.

(** *** The stop-at-page lock *)

Lemma gotoPage_locks target w :
  stoppedAtPage (self (after (gotoPage target) w)) = g_true
  /\ page (self (after (gotoPage target) w)) = target
  /\ disabled (self (after (gotoPage target) w)) = disabled (self w).
Proof. expose w. js_unfold. cbn. repeat split; reflexivity. Qed.

Lemma onScroll_locked cfg e w :
  stopAtPage cfg = true ->
  stoppedAtPage (self w) = g_true ->
  self (after (onScroll cfg e) w) = self w
  /\ hooks (after (onScroll cfg e) w) = hooks w
  /\ outcome (onScroll cfg e) w = Normal r_false.
Proof.
  intros Hs Hg. revert Hg. expose w. js_unfold. cbn. intros Hg. subst gd.
  rewrite Hs. destruct (truthy_flag ds); cbn;
    [| destruct tm; cbn]; repeat split; calls_done.
Qed.

Lemma scrolls_locked cfg es : forall w,
  stopAtPage cfg = true ->
  stoppedAtPage (self w) = g_true ->
  self (after (scrolls cfg es) w) = self w
  /\ hooks (after (scrolls cfg es) w) = hooks w.
Proof.
  induction es as [| e es IH]; intros w Hs Hg; [split; reflexivity |].
  destruct (onScroll_locked cfg e w Hs Hg) as [H1 [H2 _]].
  change (after (scrolls cfg (e :: es)) w)
    with (after (scrolls cfg es) (after (onScroll cfg e) w)).
  destruct (IH (after (onScroll cfg e) w) Hs) as [H3 H4].
  - rewrite H1. assumption.
  - rewrite H3, H4, H1, H2. split; reflexivity.
Qed.

Lemma later_onScrollStop_unlocks cfg w :
  stoppedAtPage (self (after (later (onScrollStop cfg)) w)) = g_null
  /\ disabled (self (after (later (onScrollStop cfg)) w)) = disabled (self w).
Proof.
  expose w. js_unfold. cbn.
  destruct gd; cbn; destruct (easeBack cfg); cbn; try destruct ei; cbn;
    split; reflexivity.
Qed.

(** C5. With [stopAtPage] set, after a page change every [onScroll] call
    that comes before the stop effect leaves the object untouched
    (page, delta, percentage, scrolling and the rest) and calls no hook.
    Once the stop effect has run, the guard is cleared and the next event
    is handled again: it does not return [false] and its delta is
    accumulated. *)
Theorem stop_guard_lock cfg target es e w :
  stopAtPage cfg = true ->
  truthy_flag (disabled (self w)) = false ->
  let w1 := after (gotoPage target) w in
  let w2 := after (scrolls cfg es) w1 in
  let w3 := after (later (onScrollStop cfg)) w2 in
  let w4 := after (onScroll cfg e) w3 in
  self w2 = self w1
  /\ hooks w2 = hooks w1
  /\ stoppedAtPage (self w3) = g_null
  /\ outcome (onScroll cfg e) w3 <> Normal r_false
  /\ delta (self w4) = travel cfg e w3.
Proof.
  intros Hs Hd w1 w2 w3 w4.
  destruct (gotoPage_locks target w) as [Hg [_ Hd1]]. fold w1 in Hg, Hd1.
  destruct (scrolls_locked cfg es w1 Hs Hg) as [H1 H2]. fold w2 in H1, H2.
  destruct (later_onScrollStop_unlocks cfg w2) as [H3 H4]. fold w3 in H3, H4.
  assert (Hh : handled cfg w3 = true).
  { unfold handled. rewrite H3, H4, H1, Hd1, Hd. cbn.
    rewrite andb_false_r. reflexivity. }
  destruct (onScroll_accepts cfg e w3 Hh) as [H5 [H6 _]].
  repeat split; assumption.
Qed.

Lemma stop_guard_lock_witness :
  let cfg := fst (construct two_pages_locking 0) in
  let w := snd (construct two_pages_locking 0) in
  let es := [wheel 120; wheel 120; wheel (-40)] in
  let w1 := after (gotoPage 1) w in
  let w2 := after (scrolls cfg es) w1 in
  let w3 := after (later (onScrollStop cfg)) w2 in
  let w4 := after (onScroll cfg (wheel 120)) w3 in
  stopAtPage cfg = true
  /\ truthy_flag (disabled (self w)) = false
  /\ self w2 = self w1
  /\ hooks w2 = hooks w1
  /\ stoppedAtPage (self w3) = g_null
  /\ outcome (onScroll cfg (wheel 120)) w3 <> Normal r_false
  /\ delta (self w4) = travel cfg (wheel 120) w3.
Proof.
  split; [reflexivity | split; [reflexivity |]].
  apply stop_guard_lock; reflexivity.
Defined.

(** *** The page index over a whole run *)

Lemma keeps_page_ret {A : Type} (a : A) : keeps_page (ret a).
Proof. intros w. split; reflexivity. Qed.

Lemma keeps_page_bind {A B : Type} (c : M A) (k : A -> M B) :
  keeps_page c -> (forall a, keeps_page (k a)) -> keeps_page (bind c k).
Proof.
  intros Hc Hk w. specialize (Hc w). unfold after, bind in *.
  destruct (c w) as [[a | x] w1]; cbn in *; [| assumption].
  specialize (Hk a w1). unfold after in Hk.
  destruct Hk as [H1 H2], Hc as [H3 H4]. rewrite H1, H2. split; assumption.
Qed.

Lemma keeps_page_guarded {A : Type} (c : M A) :
  keeps_page c -> keeps_page (guarded c).
Proof. intros Hc w. exact (Hc w). Qed.

Lemma keeps_page_when (b : bool) (c : M unit) :
  keeps_page c -> keeps_page (when b c).
Proof. intros Hc. destruct b; [assumption | apply keeps_page_ret]. Qed.

Lemma keeps_page_on_host (f : Host -> Host) :
  (forall h, calls (f h) = calls h) -> keeps_page (on_host f).
Proof.
  intros Hf w. unfold after, on_host, count. cbn. rewrite Hf.
  split; reflexivity.
Qed.

Lemma keeps_page_ask_host {A : Type} (f : Host -> A) : keeps_page (ask_host f).
Proof. intros w. split; reflexivity. Qed.

Lemma onScrollStop_keeps_page cfg : keeps_page (onScrollStop cfg).
Proof.
  intros w. expose w. js_unfold. cbn.
  js_cases; split; try reflexivity; calls_done.
Qed.

Lemma later_keeps_page cfg : keeps_page (later (onScrollStop cfg)).
Proof.
  intros w. expose w. js_unfold. cbn.
  js_cases; split; try reflexivity; calls_done.
Qed.

Lemma interpolateBack_keeps_page : keeps_page interpolateBack.
Proof.
  intros w. expose w. js_unfold. cbn.
  js_cases; split; try reflexivity; calls_done.
Qed.

Lemma fire_timeouts_keeps_page cfg l : keeps_page (fire_timeouts cfg l).
Proof.
  induction l as [| p l IH]; [apply keeps_page_ret |].
  cbn [fire_timeouts]. apply keeps_page_bind; [| intros _; exact IH].
  unfold fire_timeout. apply keeps_page_bind; [apply keeps_page_ask_host |].
  intros tos. apply keeps_page_when.
  apply keeps_page_bind;
    [apply keeps_page_on_host; intros h; reflexivity | intros _].
  apply keeps_page_bind;
    [apply keeps_page_on_host; intros h; reflexivity | intros _].
  apply keeps_page_guarded, later_keeps_page.
Qed.

Lemma advance_keeps_page cfg t : keeps_page (advance cfg t).
Proof.
  unfold advance. apply keeps_page_bind; [apply keeps_page_ask_host |].
  intros l. apply keeps_page_bind; [apply fire_timeouts_keeps_page |].
  intros _. apply keeps_page_on_host. intros h. reflexivity.
Qed.

Lemma dispatch_keeps_page cfg i : keeps_page (dispatch cfg i).
Proof.
  destruct i as [e | id]; cbn [dispatch].
  - apply keeps_page_guarded, onScroll_keeps_page.
  - apply keeps_page_bind; [apply keeps_page_ask_host |].
    intros l. apply keeps_page_when, keeps_page_guarded.
    apply interpolateBack_keeps_page.
Qed.

Lemma deliver_keeps_page cfg ti : keeps_page (deliver cfg ti).
Proof.
  unfold deliver. apply keeps_page_bind; [apply advance_keeps_page |].
  intros _. apply dispatch_keeps_page.
Qed.

Lemma run_keeps_page cfg l : keeps_page (run cfg l).
Proof.
  induction l as [| ti l IH]; [apply keeps_page_ret |].
  cbn [run]. apply keeps_page_bind; [apply deliver_keeps_page |].
  intros _. exact IH.
Qed.

(** C2. Over any run of the event loop -- wheel events of any magnitude
    and sign, with the stop timer and easing ticks falling where they
    may -- a page index that starts within [0, pages-1] is within that
    range after every prefix of the run, hence before and after each
    event. *)
Theorem page_stays_in_range cfg l w :
  0 < pages cfg ->
  in_range cfg w ->
  forall k, in_range cfg (after (run cfg (firstn k l)) w).
Proof.
  intros _ Hw k. unfold in_range in *.
  destruct (run_keeps_page cfg (firstn k l) w) as [H _].
  rewrite H. assumption.
Qed.

Lemma page_stays_in_range_witness :
  let cfg := fst (construct two_pages 0) in
  let w0 := snd (construct two_pages 0) in
  let l := [(0, Wheel (wheel 5000)); (20, Wheel (wheel (-9000)));
            (400, Wheel (wheel 120))] in
  0 < pages cfg
  /\ in_range cfg w0
  /\ forall k, in_range cfg (after (run cfg (firstn k l)) w0).
Proof.
  split; [reflexivity | split; [unfold in_range; cbn; lia |]].
  apply page_stays_in_range; [reflexivity | unfold in_range; cbn; lia].
Defined.

(** *** The debounce law *)

Lemma bind_after {A B : Type} (c : M A) (k : A -> M B) (w : World) (a : A) :
  outcome c w = Normal a ->
  after (bind c k) w = after (k a) (after c w)
  /\ outcome (bind c k) w = outcome (k a) (after c w).
Proof.
  unfold outcome, after, bind. destruct (c w) as [r w1]. cbn.
  intros ->. split; reflexivity.
Qed.

Lemma bind_assoc {A B C : Type} (c : M A) (k : A -> M B) (k' : B -> M C) w :
  bind (bind c k) k' w = bind c (fun a => bind (k a) k') w.
Proof. unfold bind. destruct (c w) as [[a | x] w1]; reflexivity. Qed.

Lemma onScrollStop_keeps_timeouts cfg : keeps_timeouts (onScrollStop cfg).
Proof.
  intros w. expose w. js_unfold. cbn. js_cases; repeat split; reflexivity.
Qed.

Lemma drop_id_self {A : Type} (n : nat) (x : A) : drop_id n [(n, x)] = [].
Proof. unfold drop_id. cbn. rewrite Nat.eqb_refl. reflexivity. Qed.

(** One call of the debounced function: whatever the closure had pending
    is cancelled, and one timer is pending, due [wait] from now. *)
Lemma debounced_call cfg w :
  owned w ->
  let w' := after (onScrollStop_debounced cfg) w in
  outcome (onScrollStop_debounced cfg) w = Normal tt
  /\ timeouts (host w') = [(next_id (host w), clock (host w) + eventTimeout cfg)]
  /\ timeout w' = h_id (next_id (host w))
  /\ clock (host w') = clock (host w)
  /\ stops (host w') = stops (host w).
Proof.
  unfold owned. expose w. js_unfold. cbn.
  destruct tos as [| [n d] [| q tos]]; cbn; intros H; try contradiction.
  - destruct tm; cbn; repeat split; reflexivity.
  - subst tm. cbn. rewrite Nat.eqb_refl. cbn. repeat split; reflexivity.
Qed.

Lemma fire_timeouts_normal cfg l w : outcome (fire_timeouts cfg l) w = Normal tt.
Proof.
  revert w. induction l as [| p l IH]; intros w; [reflexivity |].
  cbn [fire_timeouts].
  assert (H : outcome (fire_timeout cfg p) w = Normal tt).
  { unfold fire_timeout. js_unfold. destruct (pending _ _); reflexivity. }
  destruct (bind_after _ (fun _ => fire_timeouts cfg l) w tt H) as [_ H2].
  rewrite H2. apply IH.
Qed.

Lemma advance_normal cfg t w : outcome (advance cfg t) w = Normal tt.
Proof.
  unfold advance, outcome, bind, ask_host, on_host. cbn.
  pose proof (fire_timeouts_normal cfg (filter (due t) (timeouts (host w))) w) as H.
  unfold outcome in H.
  destruct (fire_timeouts cfg _ w) as [r w1]. cbn in H. subst r. reflexivity.
Qed.

(** The clock reaches [t] before the pending timer is due: nothing runs. *)
Lemma advance_before_due cfg t w n d :
  timeouts (host w) = [(n, d)] ->
  t < d ->
  let w' := after (advance cfg t) w in
  timeouts (host w') = [(n, d)]
  /\ timeout w' = timeout w
  /\ clock (host w') = Z.max (clock (host w)) t
  /\ stops (host w') = stops (host w).
Proof.
  expose w. cbn. intros -> Ht.
  unfold advance. js_unfold. cbn. unfold due. cbn.
  destruct (Z.leb_spec d t); [lia |]. cbn. repeat split; reflexivity.
Qed.

#[local] Arguments onScrollStop : simpl never.

(** The clock reaches or passes the due time: [later] runs once, at the
    due time, and nothing is left pending. *)
Lemma advance_past_due cfg t w n d :
  timeouts (host w) = [(n, d)] ->
  clock (host w) <= d <= t ->
  let w' := after (advance cfg t) w in
  timeouts (host w') = []
  /\ stops (host w') = stops (host w) ++ [d].
Proof.
  expose w. cbn. intros -> Ht.
  cbv [advance fire_timeout later guarded when bind ret on_host ask_host
       write_timeout Date_getTime after pending drop_id].
  cbn. unfold due. cbn.
  destruct (Z.leb_spec d t); [| lia]. cbn.
  cbv [fire_timeout later guarded when bind ret on_host ask_host
       write_timeout Date_getTime after pending drop_id].
  cbn. repeat (rewrite Nat.eqb_refl; cbn). rewrite Z.max_r by lia.
  match goal with
  | |- context [onScrollStop cfg ?w0] =>
      destruct (onScrollStop_keeps_timeouts cfg w0) as [H1 [_ [_ H4]]];
      unfold after in H1, H4; destruct (onScrollStop cfg w0) as [r w1]
  end.
  cbn in *. rewrite H1, H4. split; reflexivity.
Qed.

Lemma last_default {A : Type} (l : list A) : forall (x d d' : A),
  last (x :: l) d = last (x :: l) d'.
Proof.
  induction l as [| y l IH]; intros x d d'; [reflexivity |].
  change (last (x :: y :: l) d) with (last (y :: l) d).
  change (last (x :: y :: l) d') with (last (y :: l) d').
  apply IH.
Qed.

Lemma burst_fires_once cfg T ts : forall w n,
  0 < eventTimeout cfg ->
  timeouts (host w) = [(n, clock (host w) + eventTimeout cfg)] ->
  timeout w = h_id n ->
  spaced (eventTimeout cfg) (clock (host w)) ts ->
  last ts (clock (host w)) + eventTimeout cfg <= T ->
  let w' := after (burst cfg ts ;; advance cfg T) w in
  timeouts (host w') = []
  /\ stops (host w') =
     stops (host w) ++ [last ts (clock (host w)) + eventTimeout cfg].
Proof.
  induction ts as [| t ts IH]; intros w n Hw Hp Hn Hs HT.
  - cbn [last] in HT. cbn [last].
    change (after (burst cfg [] ;; advance cfg T) w)
      with (after (advance cfg T) w).
    apply (advance_past_due cfg T w n (clock (host w) + eventTimeout cfg));
      [assumption | lia].
  - destruct Hs as [Ht Hs].
    destruct (advance_before_due cfg t w n _ Hp (proj2 Ht)) as [A1 [A2 [A3 A4]]].
    rewrite Z.max_r in A3 by lia.
    set (w1 := after (advance cfg t) w) in *.
    assert (Ho : owned w1) by (unfold owned; rewrite A1, A2; exact Hn).
    destruct (debounced_call cfg w1 Ho) as [B0 [B1 [B2 [B3 B4]]]].
    set (w2 := after (onScrollStop_debounced cfg) w1) in *.
    assert (E : after (burst cfg (t :: ts) ;; advance cfg T) w
                = after (burst cfg ts ;; advance cfg T) w2).
    { destruct (bind_after (advance cfg t)
                  (fun _ => (onScrollStop_debounced cfg ;; burst cfg ts) ;;
                            advance cfg T)
                  w tt (advance_normal cfg t w)) as [E1 _].
      destruct (bind_after (onScrollStop_debounced cfg)
                  (fun _ => burst cfg ts ;; advance cfg T) w1 tt B0) as [E2 _].
      unfold after in *. cbn [burst]. rewrite bind_assoc, E1.
      rewrite bind_assoc. exact E2. }
    cbv zeta. rewrite E.
    assert (L : last (t :: ts) (clock (host w)) = last ts (clock (host w2))).
    { rewrite B3, A3. destruct ts as [| z ts]; [reflexivity |].
      change (last (t :: z :: ts) (clock (host w)))
        with (last (z :: ts) (clock (host w))).
      apply last_default. }
    rewrite L, <- A4, <- B4.
    apply (IH w2 (next_id (host w1)) Hw).
    + rewrite B1, B3. reflexivity.
    + exact B2.
    + rewrite B3, A3. exact Hs.
    + rewrite <- L. exact HT.
Qed.

(** The same three steps as equations on worlds. *)

Lemma debounced_call_eq cfg w :
  owned w ->
  onScrollStop_debounced cfg w =
  (Normal tt,
   mkWorld (self w) (h_id (next_id (host w)))
           (mkHost (clock (host w)) (S (next_id (host w)))
                   [(next_id (host w), clock (host w) + eventTimeout cfg)]
                   (intervals (host w)) (calls (host w)) (stops (host w)))).
Proof.
  unfold owned. expose w. js_unfold. cbn.
  destruct tos as [| [n d] [| q tos]]; cbn; intros H; try contradiction.
  - destruct tm; reflexivity.
  - subst tm. cbn. rewrite Nat.eqb_refl. reflexivity.
Qed.

Lemma advance_before_due_eq cfg t w n d :
  timeouts (host w) = [(n, d)] ->
  t < d ->
  advance cfg t w =
  (Normal tt,
   mkWorld (self w) (timeout w) (set_clock (Z.max (clock (host w)) t) (host w))).
Proof.
  expose w. cbn. intros -> Ht.
  unfold advance. js_unfold. cbn. unfold due. cbn.
  destruct (Z.leb_spec d t); [lia |]. reflexivity.
Qed.

Lemma advance_past_due_eq cfg t w n d :
  timeouts (host w) = [(n, d)] ->
  clock (host w) <= d <= t ->
  after (advance cfg t) w =
  after (on_host (fun s => set_clock (Z.max (clock s) t) s))
        (after (onScrollStop cfg) (stop_point w d 0)).
Proof.
  expose w. unfold stop_point. cbn. intros -> Ht.
  cbv [advance fire_timeout later guarded when bind ret on_host ask_host
       write_timeout Date_getTime after].
  cbn. unfold due. cbn.
  destruct (Z.leb_spec d t); [| lia]. cbn.
  cbv [fire_timeout later guarded when bind ret on_host ask_host
       write_timeout Date_getTime after pending drop_id].
  cbn. repeat (rewrite Nat.eqb_refl; cbn). rewrite (Z.max_r ck d) by lia.
  rewrite Nat.add_0_r.
  destruct (onScrollStop cfg _) as [[u | x] w1]; reflexivity.
Qed.

Lemma burst_exact cfg T ts : forall w n,
  0 < eventTimeout cfg ->
  timeouts (host w) = [(n, clock (host w) + eventTimeout cfg)] ->
  timeout w = h_id n ->
  spaced (eventTimeout cfg) (clock (host w)) ts ->
  last ts (clock (host w)) + eventTimeout cfg <= T ->
  after (burst cfg ts ;; advance cfg T) w =
  after (on_host (fun s => set_clock (Z.max (clock s) T) s))
        (after (onScrollStop cfg)
               (stop_point w (last ts (clock (host w)) + eventTimeout cfg)
                           (List.length ts))).
Proof.
  induction ts as [| t ts IH]; intros w n Hw Hp Hn Hs HT.
  - cbn [last] in HT. cbn [last List.length].
    change (after (burst cfg [] ;; advance cfg T) w)
      with (after (advance cfg T) w).
    apply (advance_past_due_eq cfg T w n); [assumption | lia].
  - destruct Hs as [Ht Hs].
    pose proof (advance_before_due_eq cfg t w n _ Hp (proj2 Ht)) as A.
    rewrite Z.max_r in A by lia.
    set (w1 := mkWorld (self w) (timeout w) (set_clock t (host w))) in *.
    assert (Ho : owned w1) by (unfold owned, w1; cbn; rewrite Hp; exact Hn).
    pose proof (debounced_call_eq cfg w1 Ho) as B.
    match type of B with _ = (_, ?x) => set (w2 := x) in * end.
    assert (E : after (burst cfg (t :: ts) ;; advance cfg T) w
                = after (burst cfg ts ;; advance cfg T) w2).
    { unfold after. cbn [burst]. rewrite !bind_assoc.
      unfold bind at 1. rewrite A.
      rewrite bind_assoc. unfold bind at 1. rewrite B. reflexivity. }
    rewrite E.
    assert (L : last (t :: ts) (clock (host w)) = last ts (clock (host w2))).
    { unfold w2, w1. cbn. destruct ts as [| z ts]; [reflexivity |].
      apply last_default. }
    rewrite (IH w2 (next_id (host w1)) Hw).
    + rewrite L. unfold stop_point, w2, w1. cbn.
      rewrite Nat.add_succ_r. reflexivity.
    + reflexivity.
    + reflexivity.
    + exact Hs.
    + rewrite <- L. exact HT.
Qed.

(** What one run of the stop effect leaves. *)
Lemma stop_effect_facts cfg w :
  let w' := after (onScrollStop cfg) w in
  percentage (self w') = percentage (self w)
  /\ page (self w') = page (self w)
  /\ calls (host w') =
     calls (host w)
     ++ (if easeBack cfg then []
         else [onScrollStop_cb (percentage (self w)) (page (self w))])
  /\ (if easeBack cfg then easeStart (self w') = Some (clock (host w))
      else scrolling (self w') = false).
Proof.
  expose w. js_unfold. cbn.
  destruct (easeBack cfg); destruct gd; cbn; try destruct ei; cbn;
    rewrite ?app_nil_r; repeat split; reflexivity.
Qed.

(** C7. A burst of calls of the debounced stop detector, the first at the
    current clock reading and each later one less than [eventTimeout]
    after the one before, makes the stop effect run exactly once,
    [eventTimeout] after the last call of the burst: the world it leaves
    is that of one run of [onScrollStop] at that clock reading, with the
    object and the calls as the burst found them.  So without [easeBack]
    the host's [onScrollStop] hook is called once, with [easeBack] the
    easing starts at that reading; nothing is left pending and the
    closure's [timeout] is [null]. *)
Theorem debounce_law cfg ts T w :
  0 < eventTimeout cfg ->
  owned w ->
  spaced (eventTimeout cfg) (clock (host w)) ts ->
  last ts (clock (host w)) + eventTimeout cfg <= T ->
  let d := last ts (clock (host w)) + eventTimeout cfg in
  let w' := after (onScrollStop_debounced cfg ;; burst cfg ts ;; advance cfg T) w in
  stops (host w') = stops (host w) ++ [d]
  /\ timeouts (host w') = []
  /\ timeout w' = h_null
  /\ w' = after (on_host (fun s => set_clock (Z.max (clock s) T) s))
            (after (onScrollStop cfg) (stop_point w d (S (List.length ts))))
  /\ (if easeBack cfg
      then calls (host w') = calls (host w)
           /\ easeStart (self w') = Some d
      else calls (host w') =
             calls (host w)
             ++ [onScrollStop_cb (percentage (self w)) (page (self w))]
           /\ scrolling (self w') = false).
Proof.
  intros Hw Ho Hs HT d w'.
  pose proof (debounced_call_eq cfg w Ho) as B.
  match type of B with _ = (_, ?x) => set (w0 := x) in * end.
  assert (E : w' = after (burst cfg ts ;; advance cfg T) w0).
  { unfold w', after. unfold bind at 1. rewrite B. reflexivity. }
  assert (X : w' = after (on_host (fun s => set_clock (Z.max (clock s) T) s))
                     (after (onScrollStop cfg)
                            (stop_point w d (S (List.length ts))))).
  { rewrite E.
    rewrite (burst_exact cfg T ts w0 (next_id (host w)) Hw eq_refl eq_refl Hs HT).
    unfold stop_point, w0, d. cbn. rewrite Nat.add_succ_r. reflexivity. }
  destruct (onScrollStop_keeps_timeouts cfg (stop_point w d (S (List.length ts))))
    as [K1 [K2 [_ K4]]].
  destruct (stop_effect_facts cfg (stop_point w d (S (List.length ts))))
    as [_ [_ [F3 F4]]].
  rewrite X. unfold after at 1 3 5 7 9 11. unfold on_host. cbn.
  rewrite K1, K2, K4, F3. cbn.
  repeat split.
  destruct (easeBack cfg); [rewrite app_nil_r |]; split; try reflexivity;
    exact F4.
Qed.

Lemma debounce_law_witness :
  let cfg := fst (construct no_options 0) in
  let w := snd (construct no_options 0) in
  let ts := [30; 90; 170] in
  0 < eventTimeout cfg
  /\ owned w
  /\ spaced (eventTimeout cfg) (clock (host w)) ts
  /\ last ts (clock (host w)) + eventTimeout cfg <= 1000
  /\ stops (host (after (onScrollStop_debounced cfg ;; burst cfg ts ;;
                         advance cfg 1000) w))
     = stops (host w) ++ [last ts (clock (host w)) + eventTimeout cfg]
  /\ timeouts (host (after (onScrollStop_debounced cfg ;; burst cfg ts ;;
                            advance cfg 1000) w)) = []
  /\ timeout (after (onScrollStop_debounced cfg ;; burst cfg ts ;;
                     advance cfg 1000) w) = h_null.
Proof.
  assert (H1 : 0 < eventTimeout (fst (construct no_options 0))) by reflexivity.
  assert (H2 : owned (snd (construct no_options 0))) by exact I.
  assert (H3 : spaced (eventTimeout (fst (construct no_options 0)))
                 (clock (host (snd (construct no_options 0)))) [30; 90; 170])
    by (cbn; lia).
  assert (H4 : last [30; 90; 170] (clock (host (snd (construct no_options 0))))
               + eventTimeout (fst (construct no_options 0)) <= 1000)
    by (cbn; lia).
  repeat (split; [assumption |]).
  destruct (debounce_law _ _ _ _ H1 H2 H3 H4) as [R1 [R2 [R3 _]]].
  split; [exact R1 | split; [exact R2 | exact R3]].
Defined.

(** The timer table stays the debounce closure's own throughout a run. *)

Lemma owned_construct options now : owned (snd (construct options now)).
Proof. exact I. Qed.

Ltac js_cases_eqb :=
  repeat (first
            [ rewrite Nat.eqb_refl
            | match goal with
              | |- context [if ?b then _ else _] => destruct b eqn:?
              | |- context [match ?h with h_undefined => _ | _ => _ end] =>
                  destruct h
              | |- context [match ?g with g_null => _ | g_true => _ end] =>
                  destruct g
              | |- context [match ?s with Some _ => _ | None => _ end] =>
                  destruct s
              end ];
          cbn).

Lemma onScroll_owned cfg e w : owned w -> owned (after (onScroll cfg e) w).
Proof.
  unfold owned. expose w. cbn.
  destruct tos as [| [n d] [| q tos]]; try contradiction; intros H;
    try subst tm; js_unfold; cbn; js_cases_eqb; trivial.
Qed.

Lemma interpolateBack_owned w : owned w -> owned (after interpolateBack w).
Proof.
  unfold owned. expose w. js_unfold. cbn. js_cases; trivial.
Qed.

Lemma advance_owned cfg t w : owned w -> owned (after (advance cfg t) w).
Proof.
  intros H. unfold owned in H.
  destruct (timeouts (host w)) as [| [n d] [| q tos]] eqn:E; try contradiction.
  - revert E. expose w. cbn. intros ->. unfold owned. reflexivity.
  - destruct (Z.leb_spec d t) as [Hd | Hd].
    + unfold owned.
      revert E H. expose w. cbn. intros -> ->.
      cbv [advance bind ask_host on_host after]. cbn. unfold due. cbn.
      destruct (Z.leb_spec d t); [| lia]. cbn.
      cbv [fire_timeout later guarded when bind ret on_host ask_host
           write_timeout Date_getTime after pending drop_id].
      cbn. repeat (rewrite Nat.eqb_refl; cbn).
      match goal with
      | |- context [onScrollStop cfg ?w0] =>
          destruct (onScrollStop_keeps_timeouts cfg w0) as [H1 _];
          unfold after in H1; destruct (onScrollStop cfg w0) as [r w1]
      end.
      cbn in *. rewrite H1. exact I.
    + destruct (advance_before_due cfg t w n d E Hd) as [A1 [A2 _]].
      unfold owned. rewrite A1, A2. exact H.
Qed.

Lemma deliver_owned cfg ti w : owned w -> owned (after (deliver cfg ti) w).
Proof.
  intros H. unfold deliver.
  destruct (bind_after (advance cfg (fst ti)) (fun _ => dispatch cfg (snd ti))
              w tt (advance_normal cfg (fst ti) w)) as [E _].
  rewrite E. apply (advance_owned cfg (fst ti)) in H.
  destruct (snd ti) as [e | id]; cbn [dispatch].
  - apply onScroll_owned, H.
  - unfold after, bind, ask_host, when. cbn.
    destruct (pending id _); [apply interpolateBack_owned, H | exact H].
Qed.

Lemma run_owned cfg l : forall w, owned w -> owned (after (run cfg l) w).
Proof.
  induction l as [| ti l IH]; intros w H; [exact H |].
  cbn [run].
  assert (N : outcome (deliver cfg ti) w = Normal tt).
  { unfold deliver.
    destruct (bind_after (advance cfg (fst ti)) (fun _ => dispatch cfg (snd ti))
                w tt (advance_normal cfg (fst ti) w)) as [_ E].
    rewrite E. destruct (snd ti) as [e | id]; [reflexivity |].
    unfold outcome, dispatch, bind, ask_host, when. cbn.
    destruct (pending id _); reflexivity. }
  destruct (bind_after (deliver cfg ti) (fun _ => run cfg l) w tt N) as [E _].
  rewrite E. apply IH, deliver_owned, H.
Qed.

(** * Further properties of the prototype *)

(** ** Momentum at the first page *)

Lemma logistic_negative (r : R) :
  (r < 0)%R ->
  exists q, logistic (VNum r) = VNum q /\ (- (1 / 2) < q < 0)%R.
Proof.
  intros Hr. unfold logistic. rewrite Math_pow_E.
  assert (H1 : (1 < exp (- r))%R).
  { rewrite <- exp_0. apply exp_increasing. lra. }
  eexists; split; [reflexivity |].
  set (x := exp (- r)) in *.
  assert (Hi : (/ (1 + x) < / 2)%R) by (apply Rinv_lt_contravar; nra).
  assert (Hj : (0 < / (1 + x))%R) by (apply Rinv_0_lt_compat; lra).
  unfold Rdiv. lra.
Qed.

(** X1. The other boundary of the momentum curve: at page 0, a handled
    event whose accumulated delta is negative leaves a percentage from
    -0.5 to 0, [onScroll] runs to its end and reports it, and the page is
    unchanged. *)
Theorem momentum_first_page_bounded cfg e w :
  momentum cfg = true ->
  (0 < pageHeight cfg)%R ->
  page (self w) = 0 ->
  handled cfg w = true ->
  (travel cfg e w < 0)%R ->
  let w' := after (onScroll cfg e) w in
  exists q,
    logistic (VNum (travel cfg e w / pageHeight cfg)) = VNum q
    /\ percentage (self w') = VNum q
    /\ (- (1 / 2) <= q <= 0)%R
    /\ outcome (onScroll cfg e) w = Normal r_undefined
    /\ page (self w') = 0
    /\ exists l, calls (host w') = l ++ [onScroll_cb (VNum q) 0].
Proof.
  intros Hm Hh Hp Hd Ht.
  assert (Hq : (travel cfg e w / pageHeight cfg < 0)%R).
  { unfold Rdiv. apply Rmult_neg_pos; [assumption |].
    apply Rinv_0_lt_compat; assumption. }
  destruct (logistic_negative _ Hq) as [q [Hl Hb]].
  exists q. split; [assumption |].
  destruct (handled_true _ _ Hd) as [Hd1 Hd2].
  revert Hl Hq Hd1 Hd2 Hp. clear Hd Ht. expose w. js_unfold. cbn.
  intros Hl Hq Hd1 Hd2 Hp. subst pg.
  assert (H1 : Rleb 1 q = false) by (apply Rleb_false; lra).
  assert (H2 : Rleb q (-1) = false) by (apply Rleb_false; lra).
  destruct tm; cbn; rewrite Hd1; cbn; rewrite Hd2; cbn;
    destruct sc; cbn in *; rewrite Hm; cbn;
    rewrite (Rltb_false 0 _ (Rlt_le _ _ Hq)), (Rltb_true _ _ Hq);
    rewrite andb_false_r; cbn; rewrite Hl; cbn;
    rewrite H1; cbn; rewrite H2; cbn;
    (repeat split; try reflexivity; try lra; eexists; reflexivity).
Qed.

Lemma momentum_first_page_bounded_witness :
  let cfg := mkSettings 3 1000 "deltaY" false true false 100 in
  let w := snd (construct no_options 0) in
  let e := wheel (-5000) in
  momentum cfg = true
  /\ (0 < pageHeight cfg)%R
  /\ page (self w) = 0
  /\ handled cfg w = true
  /\ (travel cfg e w < 0)%R
  /\ exists q,
       logistic (VNum (travel cfg e w / pageHeight cfg)) = VNum q
       /\ percentage (self (after (onScroll cfg e) w)) = VNum q
       /\ (- (1 / 2) <= q <= 0)%R
       /\ outcome (onScroll cfg e) w = Normal r_undefined
       /\ page (self (after (onScroll cfg e) w)) = 0
       /\ exists l,
            calls (host (after (onScroll cfg e) w)) =
            l ++ [onScroll_cb (VNum q) 0].
Proof.
  assert (H : (travel (mkSettings 3 1000 "deltaY" false true false 100)
                 (wheel (-5000)) (snd (construct no_options 0)) < 0)%R)
    by (unfold travel, wheel; cbn; lra).
  split; [reflexivity |].
  split; [cbn; lra |].
  split; [reflexivity |].
  split; [reflexivity |].
  split; [exact H |].
  apply momentum_first_page_bounded;
    [reflexivity | cbn; lra | reflexivity | reflexivity | exact H].
Defined.

(** ** When a wheel event throws *)

Lemma onScroll_handled_percentage cfg e w :
  handled cfg w = true ->
  percentage (self (after (onScroll cfg e) w)) = adjusted cfg e w.
Proof.
  intros H. destruct (handled_true _ _ H) as [H1 H2]. clear H.
  revert H1 H2. expose w. unfold adjusted. js_unfold. cbn. intros H1 H2.
  destruct tm; cbn; rewrite H1; cbn; rewrite H2; cbn;
    destruct sc; cbn; js_cases; reflexivity.
Qed.

(** X2. For a non-zero [pageHeight], a wheel event throws exactly when it
    is handled and one of the two page-transition tests succeeds on the
    percentage it computed; the error is always the reference to the
    unbound [page].  In every other case [onScroll] returns. *)
Theorem onScroll_throws_iff cfg e w :
  pageHeight cfg <> 0%R ->
  (outcome (onScroll cfg e) w = Thrown (ReferenceError "page")
   <-> handled cfg w && at_threshold cfg e w = true)
  /\ (forall x, outcome (onScroll cfg e) w = Thrown x ->
                x = ReferenceError "page").
Proof.
  intros _.
  expose w. unfold at_threshold, adjusted. js_unfold. cbn.
  destruct (truthy_flag ds); cbn;
    [split; [split |]; intros; discriminate |].
  destruct tm; cbn;
    (destruct (stopAtPage cfg && truthy_guard gd); cbn;
     [split; [split |]; intros; discriminate |]);
    destruct sc; cbn;
    js_cases;
    (split; [split |]; intros; try discriminate; try reflexivity;
     congruence).
Qed.

Lemma onScroll_throws_iff_witness :
  let cfg := fst (construct two_pages 0) in
  let w := snd (construct two_pages 0) in
  let e := wheel (-250) in
  pageHeight cfg <> 0%R
  /\ (outcome (onScroll cfg e) w = Thrown (ReferenceError "page")
      <-> handled cfg w && at_threshold cfg e w = true)
  /\ (forall x, outcome (onScroll cfg e) w = Thrown x ->
                x = ReferenceError "page").
Proof.
  assert (H : pageHeight (fst (construct two_pages 0)) <> 0%R) by (cbn; lra).
  split; [exact H |].
  exact (onScroll_throws_iff (fst (construct two_pages 0)) (wheel (-250))
           (snd (construct two_pages 0)) H).
Defined.

(** ** Properties carried over a whole run *)

Lemma stable_ret {A : Type} (P : World -> Prop) (a : A) : stable P (ret a).
Proof. intros w H. exact H. Qed.

Lemma stable_bind {A B : Type} (P : World -> Prop) (c : M A) (k : A -> M B) :
  stable P c -> (forall a, stable P (k a)) -> stable P (bind c k).
Proof.
  intros Hc Hk w H. specialize (Hc w H). unfold after, bind in *.
  destruct (c w) as [[a | x] w1]; cbn in *; [| assumption].
  exact (Hk a w1 Hc).
Qed.

Lemma stable_guarded {A : Type} (P : World -> Prop) (c : M A) :
  stable P c -> stable P (guarded c).
Proof. intros Hc w H. exact (Hc w H). Qed.

Lemma stable_when (P : World -> Prop) (b : bool) (c : M unit) :
  stable P c -> stable P (when b c).
Proof. intros Hc. destruct b; [assumption | apply stable_ret]. Qed.

Lemma stable_ask_host {A : Type} (P : World -> Prop) (f : Host -> A) :
  stable P (ask_host f).
Proof. intros w H. exact H. Qed.

Section RunStable.

Variable P : World -> Prop.
Variable cfg : Settings.

Hypothesis P_clock : forall v, stable P (on_host (set_clock v)).
Hypothesis P_timeouts : forall v, stable P (on_host (set_timeouts v)).
Hypothesis P_onScroll : forall e, stable P (onScroll cfg e).
Hypothesis P_later : stable P (later (onScrollStop cfg)).
Hypothesis P_interpolateBack : stable P interpolateBack.

Lemma fire_timeouts_stable l : stable P (fire_timeouts cfg l).
Proof.
  induction l as [| p l IH]; [apply stable_ret |].
  cbn [fire_timeouts]. apply stable_bind; [| intros _; exact IH].
  unfold fire_timeout. apply stable_bind; [apply stable_ask_host |].
  intros tos. apply stable_when.
  apply stable_bind.
  { intros w H. exact (P_timeouts (drop_id (fst p) (timeouts (host w))) w H). }
  intros _. apply stable_bind.
  { intros w H. exact (P_clock (Z.max (clock (host w)) (snd p)) w H). }
  intros _. apply stable_guarded, P_later.
Qed.

Lemma advance_stable t : stable P (advance cfg t).
Proof.
  unfold advance. apply stable_bind; [apply stable_ask_host |].
  intros l. apply stable_bind; [apply fire_timeouts_stable |].
  intros _ w H. exact (P_clock (Z.max (clock (host w)) t) w H).
Qed.

Lemma deliver_stable ti : stable P (deliver cfg ti).
Proof.
  unfold deliver. apply stable_bind; [apply advance_stable |].
  intros _. destruct (snd ti) as [e | id]; cbn [dispatch].
  - apply stable_guarded, P_onScroll.
  - apply stable_bind; [apply stable_ask_host |].
    intros l. apply stable_when, stable_guarded, P_interpolateBack.
Qed.

Lemma run_stable l : stable P (run cfg l).
Proof.
  induction l as [| ti l IH]; [apply stable_ret |].
  cbn [run]. apply stable_bind; [apply deliver_stable |].
  intros _. exact IH.
Qed.

End RunStable.

(** *** The lock is never set by wheel input *)

(** X3. From a world whose stop guard is [null] (as after construction),
    no run of the event loop ever sets it: [gotoPage] is the only place
    that does, and no wheel event, timer or tick reaches it.  So the page
    and the [onPageChange] hook are left alone as well. *)
Theorem run_never_locks cfg l w :
  stoppedAtPage (self w) = g_null ->
  let w' := after (run cfg l) w in
  stoppedAtPage (self w') = g_null
  /\ page (self w') = page (self w)
  /\ count is_onPageChange w' = count is_onPageChange w.
Proof.
  intros H. cbv zeta. split; [| exact (run_keeps_page cfg l w)].
  revert w H.
  apply (run_stable (fun w => stoppedAtPage (self w) = g_null) cfg).
  - intros v w H. exact H.
  - intros v w H. exact H.
  - intros e w. expose w. cbn. intros ->. js_unfold. cbn. js_cases; reflexivity.
  - intros w. expose w. cbn. intros ->. js_unfold. cbn. js_cases; reflexivity.
  - intros w. expose w. cbn. intros ->. js_unfold. cbn. js_cases; reflexivity.
Qed.

Lemma run_never_locks_witness :
  let cfg := fst (construct two_pages_locking 0) in
  let w := snd (construct two_pages_locking 0) in
  let l := [(0, Wheel (wheel 700)); (30, Wheel (wheel 700));
            (500, Wheel (wheel (-50)))] in
  stoppedAtPage (self w) = g_null
  /\ stoppedAtPage (self (after (run cfg l) w)) = g_null
  /\ page (self (after (run cfg l) w)) = page (self w)
  /\ count is_onPageChange (after (run cfg l) w) = count is_onPageChange w.
Proof.
  split; [reflexivity | apply run_never_locks; reflexivity].
Defined.

(** ** The last page without momentum *)

(** X4. Without momentum there is no stop at the last page: for a non-zero
    [pageHeight], a handled event there whose travel is above -1 page is
    reported as it is,
    [this.percentage = delta / pageHeight], however far beyond 1 it lies,
    and [onScroll] runs to its end. *)
Theorem last_page_linear_travel cfg e w :
  momentum cfg = false ->
  pageHeight cfg <> 0%R ->
  page (self w) = pages cfg - 1 ->
  handled cfg w = true ->
  (-1 < travel cfg e w / pageHeight cfg)%R ->
  let w' := after (onScroll cfg e) w in
  outcome (onScroll cfg e) w = Normal r_undefined
  /\ percentage (self w') = VNum (travel cfg e w / pageHeight cfg)
  /\ delta (self w') = travel cfg e w
  /\ exists l,
       calls (host w') =
       l ++ [onScroll_cb (VNum (travel cfg e w / pageHeight cfg)) (page (self w))].
Proof.
  intros Hm _ Hp Hd Ht.
  destruct (handled_true _ _ Hd) as [Hd1 Hd2]. clear Hd.
  apply Rleb_false in Ht.
  revert Hd1 Hd2 Hp Ht. expose w. js_unfold. cbn. intros Hd1 Hd2 Hp Ht.
  subst pg.
  destruct tm; cbn; rewrite Hd1; cbn; rewrite Hd2; cbn;
    destruct sc; cbn in *; rewrite Hm; cbn;
    rewrite Z.ltb_irrefl, andb_false_r; cbn; rewrite Ht; cbn;
    (repeat split; eexists; reflexivity).
Qed.

Lemma last_page_linear_travel_witness :
  let cfg := fst (construct two_pages 0) in
  let w := after (gotoPage 1) (snd (construct two_pages 0)) in
  let e := wheel 7000 in
  momentum cfg = false
  /\ pageHeight cfg <> 0%R
  /\ page (self w) = pages cfg - 1
  /\ handled cfg w = true
  /\ (-1 < travel cfg e w / pageHeight cfg)%R
  /\ outcome (onScroll cfg e) w = Normal r_undefined
  /\ percentage (self (after (onScroll cfg e) w))
     = VNum (travel cfg e w / pageHeight cfg)
  /\ delta (self (after (onScroll cfg e) w)) = travel cfg e w
  /\ exists l,
       calls (host (after (onScroll cfg e) w)) =
       l ++ [onScroll_cb (VNum (travel cfg e w / pageHeight cfg)) (page (self w))].
Proof.
  assert (H : (-1 < travel (fst (construct two_pages 0)) (wheel 7000)
                      (after (gotoPage 1) (snd (construct two_pages 0)))
                    / pageHeight (fst (construct two_pages 0)))%R)
    by (unfold travel, wheel; cbn; lra).
  assert (H0 : pageHeight (fst (construct two_pages 0)) <> 0%R) by (cbn; lra).
  split; [reflexivity |].
  split; [exact H0 |].
  split; [reflexivity |].
  split; [reflexivity |].
  split; [exact H |].
  apply last_page_linear_travel;
    [reflexivity | exact H0 | reflexivity | reflexivity | exact H].
Defined.

(** ** The spring back *)

Lemma easeOut_back_closed (t b d : R) :
  d <> 0%R -> easeOut t b (- b) d = (b * (1 - t / d) ^ 5)%R.
Proof. intros Hd. unfold easeOut. field. assumption. Qed.

(** X5. Easing back from [b] over [d]: the value is [b * (1 - t/d)^5]; as
    [t] runs from 0 to [d] its magnitude never grows, never exceeds that
    of [b], and its sign never flips (no overshoot past 0). *)
Theorem easeOut_back_monotone (b d t1 t2 : R) :
  (0 < d)%R ->
  (0 <= t1 <= t2)%R ->
  (t2 <= d)%R ->
  (Rabs (easeOut t2 b (- b) d) <= Rabs (easeOut t1 b (- b) d))%R
  /\ (Rabs (easeOut t1 b (- b) d) <= Rabs b)%R
  /\ (0 <= b * easeOut t2 b (- b) d)%R.
Proof.
  intros Hd [H1 H12] H2. assert (Hd0 : d <> 0%R) by lra.
  rewrite !easeOut_back_closed by assumption.
  assert (Hx : forall t, (0 <= t <= d)%R -> (0 <= 1 - t / d <= 1)%R).
  { intros t [Ha Hb]. unfold Rdiv.
    assert (0 <= t * / d)%R
      by (apply Rmult_le_pos; [lra | left; apply Rinv_0_lt_compat; lra]).
    assert (t * / d <= 1)%R.
    { apply (Rmult_le_reg_r d); [lra |].
      rewrite Rmult_assoc, Rinv_l by assumption. lra. }
    lra. }
  destruct (Hx t1) as [A1 B1]; [lra |].
  destruct (Hx t2) as [A2 B2]; [lra |].
  assert (H21 : (1 - t2 / d <= 1 - t1 / d)%R).
  { unfold Rdiv.
    assert (t1 * / d <= t2 * / d)%R
      by (apply Rmult_le_compat_r; [left; apply Rinv_0_lt_compat; lra | lra]).
    lra. }
  set (x1 := (1 - t1 / d)%R) in *. set (x2 := (1 - t2 / d)%R) in *.
  assert (P1 : (0 <= x1 ^ 5)%R) by (apply pow_le; assumption).
  assert (P2 : (0 <= x2 ^ 5)%R) by (apply pow_le; assumption).
  assert (P21 : (x2 ^ 5 <= x1 ^ 5)%R) by (apply pow_incr; split; assumption).
  assert (P11 : (x1 ^ 5 <= 1)%R).
  { rewrite <- (pow1 5). apply pow_incr; split; assumption. }
  rewrite !Rabs_mult, (Rabs_pos_eq _ P1), (Rabs_pos_eq _ P2).
  pose proof (Rabs_pos b) as Hb.
  repeat split.
  - apply Rmult_le_compat_l; assumption.
  - rewrite <- (Rmult_1_r (Rabs b)) at 2. apply Rmult_le_compat_l; assumption.
  - replace (b * (b * x2 ^ 5))%R with ((b * b) * x2 ^ 5)%R by ring.
    apply Rmult_le_pos; [apply Rle_0_sqr |]. assumption.
Qed.

Lemma easeOut_back_monotone_witness :
  (0 < 300)%R
  /\ (0 <= 16 <= 160)%R
  /\ (160 <= 300)%R
  /\ (Rabs (easeOut 160 (1 / 2) (- (1 / 2)) 300)
      <= Rabs (easeOut 16 (1 / 2) (- (1 / 2)) 300))%R
  /\ (Rabs (easeOut 16 (1 / 2) (- (1 / 2)) 300) <= Rabs (1 / 2))%R
  /\ (0 <= 1 / 2 * easeOut 160 (1 / 2) (- (1 / 2)) 300)%R.
Proof.
  split; [lra |]. split; [lra |]. split; [lra |].
  apply easeOut_back_monotone; lra.
Defined.

Lemma pending_app_one {A : Type} (n : nat) (l : list (nat * A)) (x : A) :
  pending n (l ++ [(n, x)]) = true.
Proof.
  unfold pending. rewrite existsb_app. cbn. rewrite Nat.eqb_refl.
  rewrite orb_true_r. reflexivity.
Qed.

Lemma pending_drop_id {A : Type} (n : nat) (l : list (nat * A)) :
  pending n (drop_id n l) = false.
Proof.
  unfold pending, drop_id. induction l as [| [m x] l IH]; [reflexivity |].
  cbn. destruct (Nat.eqb m n) eqn:E; cbn; [exact IH |].
  rewrite E. exact IH.
Qed.

Lemma drop_id_app {A : Type} (n : nat) (l1 l2 : list (nat * A)) :
  drop_id n (l1 ++ l2) = drop_id n l1 ++ drop_id n l2.
Proof. unfold drop_id. apply filter_app. Qed.

#[local] Arguments pending : simpl never.
#[local] Arguments drop_id : simpl never.
#[local] Arguments easeOut_back : simpl never.

Lemma easeOut_back_end (p : R) : easeOut_back (Some 300) (VNum p) = VNum 0.
Proof.
  unfold easeOut_back. cbn [to_number]. f_equal.
  rewrite easeOut_back_closed by lra. field.
Qed.

(** X6. A tick of the easing interval that comes no later than 300 ms
    after [startEasing] sets the percentage to the eased value for the
    elapsed time, reports it through the [onScroll] hook with the current
    page, and leaves the interval running. *)
Theorem easing_tick_in_window cfg t w p :
  timeouts (host w) = [] ->
  percentage (self w) = VNum p ->
  clock (host w) <= t <= clock (host w) + 300 ->
  let id := next_id (host w) in
  let w1 := after startEasing w in
  let w2 := after (deliver cfg (t, Tick id)) w1 in
  let q := easeOut (IZR (t - clock (host w))) p (- p) 300 in
  percentage (self w2) = VNum q
  /\ calls (host w2) = calls (host w) ++ [onScroll_cb (VNum q) (page (self w))]
  /\ pending id (intervals (host w2)) = true
  /\ delta (self w2) = 0%R
  /\ scrolling (self w2) = scrolling (self w).
Proof.
  expose w. cbn. intros -> -> Ht.
  cbv [deliver advance dispatch fire_timeouts fst snd].
  js_unfold. cbn.
  destruct ei; cbn; rewrite Z.max_r by lia; rewrite pending_app_one; cbn;
    (destruct (Z.ltb_spec 300 (t - ck)); [lia |]); cbn;
    rewrite ?pending_app_one; repeat split; reflexivity.
Qed.

Lemma easing_tick_in_window_witness :
  let cfg := fst (construct no_options 0) in
  let w := after (gotoPage 0) (snd (construct no_options 0)) in
  timeouts (host w) = []
  /\ percentage (self w) = VNum 0
  /\ clock (host w) <= 160 <= clock (host w) + 300
  /\ percentage (self (after (deliver cfg (160, Tick (next_id (host w))))
                            (after startEasing w)))
     = VNum (easeOut (IZR (160 - clock (host w))) 0 (- 0) 300).
Proof.
  split; [reflexivity |]. split; [reflexivity |]. split; [cbn; lia |].
  apply (easing_tick_in_window (fst (construct no_options 0)) 160
           (after (gotoPage 0) (snd (construct no_options 0))) 0);
    [reflexivity | reflexivity | cbn; lia].
Defined.

(** X7. The first tick that comes more than 300 ms after [startEasing]
    ends the animation: the percentage is exactly 0, it is reported once
    through the [onScroll] hook, and the interval is cancelled, so a
    later tick of that interval changes nothing.  [scrolling] is not
    reset and the [onScrollStop] hook is not called. *)
Theorem easing_last_tick cfg t t' w p :
  timeouts (host w) = [] ->
  percentage (self w) = VNum p ->
  clock (host w) + 300 < t ->
  let id := next_id (host w) in
  let w1 := after startEasing w in
  let w2 := after (deliver cfg (t, Tick id)) w1 in
  let w3 := after (deliver cfg (t', Tick id)) w2 in
  percentage (self w2) = VNum 0
  /\ calls (host w2) = calls (host w) ++ [onScroll_cb (VNum 0) (page (self w))]
  /\ pending id (intervals (host w2)) = false
  /\ scrolling (self w2) = scrolling (self w)
  /\ self w3 = self w2
  /\ calls (host w3) = calls (host w2).
Proof.
  expose w. cbn. intros -> -> Ht.
  cbv [deliver advance dispatch fire_timeouts fst snd].
  js_unfold. cbn.
  destruct ei; cbn; rewrite Z.max_r by lia; rewrite pending_app_one; cbn;
    (destruct (Z.ltb_spec 300 (t - ck)); [| lia]); cbn;
    rewrite drop_id_app, drop_id_self, app_nil_r, ?pending_drop_id;
    cbn; rewrite easeOut_back_end; repeat split; reflexivity.
Qed.

Lemma easing_last_tick_witness :
  let cfg := fst (construct no_options 0) in
  let w := after (gotoPage 0) (snd (construct no_options 0)) in
  let id := next_id (host w) in
  let w2 := after (deliver cfg (304, Tick id)) (after startEasing w) in
  timeouts (host w) = []
  /\ percentage (self w) = VNum 0
  /\ clock (host w) + 300 < 304
  /\ percentage (self w2) = VNum 0
  /\ pending id (intervals (host w2)) = false.
Proof.
  split; [reflexivity |]. split; [reflexivity |]. split; [cbn; lia |].
  destruct (easing_last_tick (fst (construct no_options 0)) 304 320
              (after (gotoPage 0) (snd (construct no_options 0))) 0)
    as [H1 [_ [H3 _]]]; [reflexivity | reflexivity | cbn; lia |].
  split; [exact H1 | exact H3].
Defined.

(** *** With [easeBack], scrolling never ends *)

(** X8. With [easeBack] set, nothing in a run ever calls the host's
    [onScrollStop] hook, and nothing sets [scrolling] back to false: once
    the controller is scrolling it stays so, and the [onScrollStart] hook
    is not called again. *)
Theorem easeBack_never_reports_stop cfg l w :
  easeBack cfg = true ->
  let w' := after (run cfg l) w in
  count is_onScrollStop w' = count is_onScrollStop w
  /\ (scrolling (self w) = true ->
      scrolling (self w') = true
      /\ count is_onScrollStart w' = count is_onScrollStart w).
Proof.
  intros Hb. cbv zeta. split.
  - revert w.
    assert (H : forall n, stable (fun w => count is_onScrollStop w = n) (run cfg l)).
    { intros n. apply run_stable.
      - intros v w H. exact H.
      - intros v w H. exact H.
      - intros e w. expose w. js_unfold. cbn. intros <-.
        js_cases; calls_done.
      - intros w. expose w. js_unfold. cbn. intros <-. rewrite Hb.
        js_cases; calls_done.
      - intros w. expose w. js_unfold. cbn. intros <-.
        js_cases; calls_done. }
    intros w. exact (H _ w eq_refl).
  - revert w.
    assert (H : forall n,
               stable (fun w => scrolling (self w) = true
                                /\ count is_onScrollStart w = n) (run cfg l)).
    { intros n. apply run_stable.
      - intros v w H. exact H.
      - intros v w H. exact H.
      - intros e w. expose w. js_unfold. cbn. intros [-> <-].
        js_cases; split; calls_done.
      - intros w. expose w. js_unfold. cbn. intros [-> <-]. rewrite Hb.
        js_cases; split; calls_done.
      - intros w. expose w. js_unfold. cbn. intros [-> <-].
        js_cases; split; calls_done. }
    intros w Hs. exact (H _ w (conj Hs eq_refl)).
Qed.

Lemma easeBack_never_reports_stop_witness :
  let cfg := mkSettings 3 1000 "deltaY" false false true 100 in
  let w := after (onScroll cfg (wheel 200)) (snd (construct no_options 0)) in
  let l := [(20, Wheel (wheel 200)); (400, Tick 1%nat);
            (900, Wheel (wheel (-100)))] in
  easeBack cfg = true
  /\ scrolling (self w) = true
  /\ count is_onScrollStop (after (run cfg l) w) = count is_onScrollStop w
  /\ scrolling (self (after (run cfg l) w)) = true
  /\ count is_onScrollStart (after (run cfg l) w) = count is_onScrollStart w.
Proof.
  assert (Hs : scrolling
                 (self (after (onScroll (mkSettings 3 1000 "deltaY" false false true 100)
                                 (wheel 200))
                          (snd (construct no_options 0)))) = true).
  { destruct (onScroll_accepts (mkSettings 3 1000 "deltaY" false false true 100)
                (wheel 200) (snd (construct no_options 0)) eq_refl)
      as [_ [_ H]]. exact H. }
  split; [reflexivity |]. split; [exact Hs |].
  destruct (easeBack_never_reports_stop
              (mkSettings 3 1000 "deltaY" false false true 100)
              [(20, Wheel (wheel 200)); (400, Tick 1%nat);
               (900, Wheel (wheel (-100)))]
              (after (onScroll (mkSettings 3 1000 "deltaY" false false true 100)
                        (wheel 200))
                 (snd (construct no_options 0))) eq_refl) as [H1 H2].
  destruct (H2 Hs) as [H3 H4].
  split; [exact H1 | split; [exact H3 | exact H4]].
Defined.

(** *** One easing interval at a time *)

(** Over a run the table never holds more than the stored interval. *)
Lemma run_one_interval cfg l w :
  one_interval w ->
  one_interval (after (run cfg l) w)
  /\ (List.length (intervals (host (after (run cfg l) w))) <= 1)%nat.
Proof.
  intros H.
  assert (H' : one_interval (after (run cfg l) w)).
  { revert w H. apply run_stable.
    - intros v w H. exact H.
    - intros v w H. exact H.
    - intros e w. unfold one_interval. expose w. js_unfold. cbn.
      intros H. js_cases; exact H.
    - intros w. unfold one_interval. expose w. js_unfold. cbn.
      destruct ivs as [| [n d] [| q ivs]]; cbn; intros H;
        try contradiction; try subst ei; js_cases;
        unfold drop_id; cbn; rewrite ?Nat.eqb_refl; cbn; trivial.
    - intros w. unfold one_interval. expose w. js_unfold. cbn.
      destruct ivs as [| [n d] [| q ivs]]; cbn; intros H;
        try contradiction; try subst ei; js_cases;
        unfold drop_id; cbn; rewrite ?Nat.eqb_refl; cbn; trivial. }
  split; [exact H' |].
  unfold one_interval in H'.
  destruct (intervals (host (after (run cfg l) w))) as [| p [| q r]];
    cbn; [lia | lia | contradiction].
Qed.

Lemma startEasing_registers w :
  one_interval w ->
  let w' := after startEasing w in
  intervals (host w') = [(next_id (host w), 16)]
  /\ easeInterval (self w') = h_id (next_id (host w))
  /\ next_id (host w') = S (next_id (host w))
  /\ one_interval w'.
Proof.
  unfold one_interval. expose w. js_unfold. cbn.
  destruct ivs as [| [n d] [| q ivs]]; cbn; intros H; try contradiction.
  - destruct ei; cbn; repeat split; reflexivity.
  - subst ei. unfold drop_id. cbn. rewrite Nat.eqb_refl. cbn.
    repeat split; reflexivity.
Qed.

(** X9. [startEasing] cancels the interval it stored and registers a new
    one: after any run, a call of [startEasing] leaves exactly one easing
    interval, the new one, of period 16 ms and stored in
    [this.easeInterval]; a second call replaces it by the next id. *)
Theorem startEasing_replaces_interval cfg l w :
  one_interval w ->
  let w1 := after (run cfg l) w in
  let w2 := after startEasing w1 in
  let w3 := after startEasing w2 in
  intervals (host w2) = [(next_id (host w1), 16)]
  /\ easeInterval (self w2) = h_id (next_id (host w1))
  /\ intervals (host w3) = [(S (next_id (host w1)), 16)]
  /\ easeInterval (self w3) = h_id (S (next_id (host w1))).
Proof.
  intros H w1 w2 w3.
  destruct (run_one_interval cfg l w H) as [H1 _]. fold w1 in H1.
  destruct (startEasing_registers w1 H1) as [A1 [A2 [A3 A4]]].
  fold w2 in A1, A2, A3, A4.
  destruct (startEasing_registers w2 A4) as [B1 [B2 _]].
  fold w3 in B1, B2. rewrite A3 in B1, B2.
  repeat split; assumption.
Qed.

Lemma startEasing_replaces_interval_witness :
  let cfg := mkSettings 3 1000 "deltaY" false false true 100 in
  let w := snd (construct no_options 0) in
  let l := [(0, Wheel (wheel 200)); (150, Wheel (wheel 200));
            (300, Wheel (wheel 50))] in
  let w1 := after (run cfg l) w in
  let w2 := after startEasing w1 in
  one_interval w
  /\ intervals (host w2) = [(next_id (host w1), 16)]
  /\ easeInterval (self w2) = h_id (next_id (host w1))
  /\ intervals (host (after startEasing w2)) = [(S (next_id (host w1)), 16)].
Proof.
  split; [exact I |].
  destruct (startEasing_replaces_interval
              (mkSettings 3 1000 "deltaY" false false true 100)
              [(0, Wheel (wheel 200)); (150, Wheel (wheel 200));
               (300, Wheel (wheel 50))]
              (snd (construct no_options 0)) I) as [R1 [R2 [R3 _]]].
  split; [exact R1 | split; [exact R2 | exact R3]].
Defined.

(** ** More on the debounced stop detector *)

(** The clock passes the due time of the pending timer: what is left. *)
Lemma advance_fires cfg t w n d :
  timeouts (host w) = [(n, d)] ->
  clock (host w) <= d <= t ->
  let w' := after (advance cfg t) w in
  timeouts (host w') = []
  /\ stops (host w') = stops (host w) ++ [d]
  /\ clock (host w') = t
  /\ stoppedAtPage (self w') = g_null
  /\ disabled (self w') = disabled (self w)
  /\ page (self w') = page (self w).
Proof.
  expose w. cbn. intros -> Ht.
  cbv [advance fire_timeout later guarded when bind ret on_host ask_host
       write_timeout Date_getTime after].
  cbn. unfold due. cbn.
  destruct (Z.leb_spec d t); [| lia]. cbn.
  cbv [fire_timeout later guarded when bind ret on_host ask_host
       write_timeout Date_getTime after].
  unfold pending, drop_id.
  cbn. repeat (rewrite Nat.eqb_refl; cbn). rewrite (Z.max_r ck d) by lia.
  js_unfold. cbn.
  destruct gd; cbn; js_cases; rewrite Z.max_r by lia; repeat split; reflexivity.
Qed.

Lemma deliver_normal cfg ti w : outcome (deliver cfg ti) w = Normal tt.
Proof.
  unfold deliver.
  destruct (bind_after (advance cfg (fst ti)) (fun _ => dispatch cfg (snd ti))
              w tt (advance_normal cfg (fst ti) w)) as [_ E].
  rewrite E. destruct (snd ti) as [e | id]; [reflexivity |].
  unfold outcome, dispatch, bind, ask_host, when. cbn.
  destruct (pending id _); reflexivity.
Qed.

Lemma advance_fires_full cfg t w n d :
  timeouts (host w) = [(n, d)] ->
  clock (host w) <= d <= t ->
  let w' := after (advance cfg t) w in
  timeouts (host w') = []
  /\ timeout w' = h_null
  /\ clock (host w') = t
  /\ stops (host w') = stops (host w) ++ [d]
  /\ percentage (self w') = percentage (self w)
  /\ page (self w') = page (self w)
  /\ calls (host w') =
     calls (host w)
     ++ (if easeBack cfg then []
         else [onScrollStop_cb (percentage (self w)) (page (self w))])
  /\ (if easeBack cfg then easeStart (self w') = Some d
      else scrolling (self w') = false).
Proof.
  intros Hp Ht. cbv zeta. rewrite (advance_past_due_eq cfg t w n d Hp Ht).
  destruct (onScrollStop_keeps_timeouts cfg (stop_point w d 0))
    as [K1 [K2 [K3 K4]]].
  destruct (stop_effect_facts cfg (stop_point w d 0)) as [F1 [F2 [F3 F4]]].
  unfold after at 1 3 5 7 9 11 13 15. unfold on_host. cbn.
  rewrite K1, K2, K3, K4, F1, F2, F3. cbn.
  rewrite Z.max_r by lia. repeat split. exact F4.
Qed.

Lemma burst_firings_full cfg T ts : forall w n,
  0 < eventTimeout cfg ->
  timeouts (host w) = [(n, clock (host w) + eventTimeout cfg)] ->
  timeout w = h_id n ->
  ascending (clock (host w)) ts ->
  last ts (clock (host w)) + eventTimeout cfg <= T ->
  let w' := after (burst cfg ts ;; advance cfg T) w in
  let F := firings (eventTimeout cfg) (clock (host w)) ts in
  timeouts (host w') = []
  /\ stops (host w') = stops (host w) ++ F
  /\ percentage (self w') = percentage (self w)
  /\ page (self w') = page (self w)
  /\ calls (host w') =
     calls (host w)
     ++ (if easeBack cfg then []
         else repeat (onScrollStop_cb (percentage (self w)) (page (self w)))
                     (List.length F))
  /\ (if easeBack cfg
      then easeStart (self w') = Some (last ts (clock (host w)) + eventTimeout cfg)
      else scrolling (self w') = false).
Proof.
  induction ts as [| t ts IH]; intros w n Hw Hp Hn Hs HT.
  - cbn [last] in HT. cbn [last firings List.length repeat].
    change (after (burst cfg [] ;; advance cfg T) w)
      with (after (advance cfg T) w).
    assert (Hc : clock (host w) <= clock (host w) + eventTimeout cfg <= T) by lia.
    destruct (advance_fires_full cfg T w n _ Hp Hc)
      as [A1 [_ [_ [A4 [A5 [A6 [A7 A8]]]]]]].
    cbv zeta. rewrite A1, A4, A5, A6, A7.
    repeat split; try reflexivity; exact A8.
  - destruct Hs as [Ht Hs].
    set (w1 := after (advance cfg t) w).
    assert (A : owned w1
                /\ clock (host w1) = t
                /\ percentage (self w1) = percentage (self w)
                /\ page (self w1) = page (self w)
                /\ stops (host w1) ++ firings (eventTimeout cfg) t ts
                   = stops (host w)
                     ++ firings (eventTimeout cfg) (clock (host w)) (t :: ts)
                /\ calls (host w1)
                   ++ (if easeBack cfg then []
                       else repeat (onScrollStop_cb (percentage (self w))
                                                    (page (self w)))
                                   (List.length (firings (eventTimeout cfg) t ts)))
                   = calls (host w)
                     ++ (if easeBack cfg then []
                         else repeat (onScrollStop_cb (percentage (self w))
                                                      (page (self w)))
                                     (List.length
                                        (firings (eventTimeout cfg)
                                                 (clock (host w)) (t :: ts))))).
    { cbn [firings].
      destruct (Z.leb_spec (clock (host w) + eventTimeout cfg) t) as [Hd | Hd].
      - assert (Hc : clock (host w) <= clock (host w) + eventTimeout cfg <= t)
          by lia.
        destruct (advance_fires_full cfg t w n _ Hp Hc)
          as [B1 [_ [B3 [B4 [B5 [B6 [B7 _]]]]]]].
        fold w1 in B1, B3, B4, B5, B6, B7. unfold owned.
        rewrite B1, B3, B4, B5, B6, B7, <- !app_assoc.
        repeat split. destruct (easeBack cfg); reflexivity.
      - pose proof (advance_before_due_eq cfg t w n _ Hp Hd) as B.
        unfold w1, after. rewrite B. unfold owned. cbn.
        rewrite Hp, Z.max_r by lia. repeat split. exact Hn. }
    destruct A as [Ho [A1 [A2 [A3 [A4 A5]]]]].
    pose proof (debounced_call_eq cfg w1 Ho) as B.
    assert (B0 : outcome (onScrollStop_debounced cfg) w1 = Normal tt)
      by (unfold outcome; rewrite B; reflexivity).
    assert (Hw2 : after (onScrollStop_debounced cfg) w1
                  = mkWorld (self w1) (h_id (next_id (host w1)))
                      (mkHost (clock (host w1)) (S (next_id (host w1)))
                         [(next_id (host w1),
                           clock (host w1) + eventTimeout cfg)]
                         (intervals (host w1)) (calls (host w1))
                         (stops (host w1))))
      by (unfold after; rewrite B; reflexivity).
    set (w2 := after (onScrollStop_debounced cfg) w1) in *.
    assert (W : self w2 = self w1
                /\ clock (host w2) = t
                /\ stops (host w2) = stops (host w1)
                /\ calls (host w2) = calls (host w1)
                /\ timeouts (host w2)
                   = [(next_id (host w1), clock (host w2) + eventTimeout cfg)]
                /\ timeout w2 = h_id (next_id (host w1)))
      by (rewrite Hw2; cbn; rewrite A1; repeat split).
    destruct W as [W1 [W2 [W3 [W4 [W5 W6]]]]]. clear Hw2.
    assert (E : after (burst cfg (t :: ts) ;; advance cfg T) w
                = after (burst cfg ts ;; advance cfg T) w2).
    { destruct (bind_after (advance cfg t)
                  (fun _ => (onScrollStop_debounced cfg ;; burst cfg ts) ;;
                            advance cfg T)
                  w tt (advance_normal cfg t w)) as [E1 _].
      destruct (bind_after (onScrollStop_debounced cfg)
                  (fun _ => burst cfg ts ;; advance cfg T) w1 tt B0) as [E2 _].
      unfold after in *. cbn [burst]. rewrite bind_assoc, E1.
      rewrite bind_assoc. exact E2. }
    assert (L : last (t :: ts) (clock (host w)) = last ts (clock (host w2))).
    { rewrite W2. destruct ts as [| z ts]; [reflexivity |].
      change (last (t :: z :: ts) (clock (host w)))
        with (last (z :: ts) (clock (host w))).
      apply last_default. }
    cbv zeta. rewrite E, L, <- A4, <- A5.
    destruct (IH w2 (next_id (host w1)) Hw) as [C1 [C2 [C3 [C4 [C5 C6]]]]].
    + exact W5.
    + exact W6.
    + rewrite W2. exact Hs.
    + rewrite <- L. exact HT.
    + rewrite W1, W2, W3, W4 in *. rewrite A2, A3 in C5.
      rewrite C1, C2, C3, C4, C5, A2, A3. repeat split. exact C6.
Qed.

(** X10. The debounced stop detector in full: for calls at non-decreasing
    clock readings, the stop effect runs [eventTimeout] after every call
    that is not followed by another one within [eventTimeout], the last
    call included, and at no other time.  Each run is a run of
    [onScrollStop] itself: without [easeBack] the host's [onScrollStop]
    hook is called once per run, with the percentage and page the burst
    found, and [scrolling] ends false; with [easeBack] no hook is called
    and the easing last started at the final run. *)
Theorem debounce_firings cfg ts T w :
  0 < eventTimeout cfg ->
  owned w ->
  ascending (clock (host w)) ts ->
  last ts (clock (host w)) + eventTimeout cfg <= T ->
  let F := firings (eventTimeout cfg) (clock (host w)) ts in
  let w' := after (onScrollStop_debounced cfg ;; burst cfg ts ;; advance cfg T) w in
  stops (host w') = stops (host w) ++ F
  /\ timeouts (host w') = []
  /\ calls (host w') =
     calls (host w)
     ++ (if easeBack cfg then []
         else repeat (onScrollStop_cb (percentage (self w)) (page (self w)))
                     (List.length F))
  /\ (if easeBack cfg
      then easeStart (self w')
           = Some (last ts (clock (host w)) + eventTimeout cfg)
      else scrolling (self w') = false).
Proof.
  intros Hw Ho Hs HT.
  pose proof (debounced_call_eq cfg w Ho) as B.
  assert (B0 : outcome (onScrollStop_debounced cfg) w = Normal tt)
    by (unfold outcome; rewrite B; reflexivity).
  assert (Hw0 : after (onScrollStop_debounced cfg) w
                = mkWorld (self w) (h_id (next_id (host w)))
                    (mkHost (clock (host w)) (S (next_id (host w)))
                       [(next_id (host w), clock (host w) + eventTimeout cfg)]
                       (intervals (host w)) (calls (host w)) (stops (host w))))
    by (unfold after; rewrite B; reflexivity).
  destruct (bind_after (onScrollStop_debounced cfg)
              (fun _ => burst cfg ts ;; advance cfg T) w tt B0) as [E _].
  set (w0 := after (onScrollStop_debounced cfg) w) in *.
  assert (W : self w0 = self w
              /\ clock (host w0) = clock (host w)
              /\ stops (host w0) = stops (host w)
              /\ calls (host w0) = calls (host w)
              /\ timeouts (host w0)
                 = [(next_id (host w), clock (host w0) + eventTimeout cfg)]
              /\ timeout w0 = h_id (next_id (host w)))
    by (rewrite Hw0; repeat split).
  destruct W as [W1 [W2 [W3 [W4 [W5 W6]]]]]. clear Hw0.
  cbv zeta. rewrite E.
  rewrite <- W2 in Hs, HT.
  destruct (burst_firings_full cfg T ts w0 _ Hw W5 W6 Hs HT)
    as [C1 [C2 [_ [_ [C5 C6]]]]].
  rewrite W1, W2, W3, W4 in *.
  repeat split; assumption.
Qed.

Lemma debounce_firings_witness :
  let cfg := fst (construct no_options 0) in
  let w := snd (construct no_options 0) in
  let ts := [30; 200; 250] in
  let w' := after (onScrollStop_debounced cfg ;; burst cfg ts ;;
                   advance cfg 1000) w in
  0 < eventTimeout cfg
  /\ owned w
  /\ ascending (clock (host w)) ts
  /\ last ts (clock (host w)) + eventTimeout cfg <= 1000
  /\ firings (eventTimeout cfg) (clock (host w)) ts = [130; 350]
  /\ stops (host w')
     = stops (host w) ++ firings (eventTimeout cfg) (clock (host w)) ts
  /\ calls (host w')
     = calls (host w)
       ++ repeat (onScrollStop_cb (percentage (self w)) (page (self w)))
                 (List.length
                    (firings (eventTimeout cfg) (clock (host w)) ts)).
Proof.
  assert (H1 : 0 < eventTimeout (fst (construct no_options 0))) by reflexivity.
  assert (H2 : owned (snd (construct no_options 0))) by exact I.
  assert (H3 : ascending (clock (host (snd (construct no_options 0))))
                 [30; 200; 250]) by (cbn; lia).
  assert (H4 : last [30; 200; 250] (clock (host (snd (construct no_options 0))))
               + eventTimeout (fst (construct no_options 0)) <= 1000)
    by (cbn; lia).
  repeat (split; [assumption |]).
  split; [reflexivity |].
  destruct (debounce_firings _ _ _ _ H1 H2 H3 H4) as [R1 [_ [R3 _]]].
  split; [exact R1 | exact R3].
Defined.

(** ** The lock under a stream of wheel events *)

Lemma onScroll_locked_rearm cfg e w :
  stopAtPage cfg = true ->
  stoppedAtPage (self w) = g_true ->
  truthy_flag (disabled (self w)) = false ->
  owned w ->
  let w' := after (onScroll cfg e) w in
  self w' = self w
  /\ hooks w' = hooks w
  /\ timeouts (host w') = [(next_id (host w), clock (host w) + eventTimeout cfg)]
  /\ timeout w' = h_id (next_id (host w))
  /\ clock (host w') = clock (host w)
  /\ stops (host w') = stops (host w).
Proof.
  intros Hs. unfold owned. expose w. cbn. intros -> Hd.
  js_unfold. cbn. rewrite Hd, Hs. cbn.
  destruct tos as [| [n d] [| q tos]]; cbn; intros H; try contradiction.
  - destruct tm; cbn; repeat split; calls_done.
  - subst tm. unfold drop_id. cbn. rewrite Nat.eqb_refl. cbn.
    repeat split; calls_done.
Qed.

Lemma locked_run cfg tes : forall w n,
  0 < eventTimeout cfg ->
  stopAtPage cfg = true ->
  stoppedAtPage (self w) = g_true ->
  truthy_flag (disabled (self w)) = false ->
  timeouts (host w) = [(n, clock (host w) + eventTimeout cfg)] ->
  timeout w = h_id n ->
  spaced (eventTimeout cfg) (clock (host w)) (map fst tes) ->
  let w' := after (run cfg (wheels tes)) w in
  self w' = self w
  /\ hooks w' = hooks w
  /\ stops (host w') = stops (host w)
  /\ clock (host w') = last (map fst tes) (clock (host w))
  /\ exists n',
       timeouts (host w') = [(n', clock (host w') + eventTimeout cfg)]
       /\ timeout w' = h_id n'.
Proof.
  induction tes as [| [t e] tes IH]; intros w n Hw Hs Hg Hd Hp Hn Hsp.
  - cbn. repeat split. exists n. split; assumption.
  - cbn [map fst] in Hsp. destruct Hsp as [Ht Hsp].
    destruct (advance_before_due cfg t w n _ Hp (proj2 Ht)) as [A1 [A2 [A3 A4]]].
    rewrite Z.max_r in A3 by lia.
    assert (A0 : self (after (advance cfg t) w) = self w
                 /\ hooks (after (advance cfg t) w) = hooks w).
    { revert Hp. clear - Ht. expose w. cbn in *. intros ->.
      unfold advance. js_unfold. cbn. unfold due. cbn.
      destruct (Z.leb_spec (ck + eventTimeout cfg) t); [lia |].
      cbn. split; reflexivity. }
    destruct A0 as [A5 A6].
    set (w1 := after (advance cfg t) w) in *.
    assert (Ho : owned w1) by (unfold owned; rewrite A1, A2; exact Hn).
    assert (Hg1 : stoppedAtPage (self w1) = g_true) by (rewrite A5; exact Hg).
    assert (Hd1 : truthy_flag (disabled (self w1)) = false)
      by (rewrite A5; exact Hd).
    destruct (onScroll_locked_rearm cfg e w1 Hs Hg1 Hd1 Ho)
      as [B1 [B2 [B3 [B4 [B5 B6]]]]].
    set (w2 := after (onScroll cfg e) w1) in *.
    assert (E : after (run cfg (wheels ((t, e) :: tes))) w
                = after (run cfg (wheels tes)) w2).
    { cbn [wheels map fst snd run].
      destruct (bind_after (deliver cfg (t, Wheel e))
                  (fun _ => run cfg (map (fun te => (fst te, Wheel (snd te))) tes))
                  w tt (deliver_normal cfg (t, Wheel e) w)) as [E1 _].
      rewrite E1. f_equal.
      unfold deliver. cbn [fst snd dispatch].
      destruct (bind_after (advance cfg t) (fun _ => guarded (onScroll cfg e))
                  w tt (advance_normal cfg t w)) as [E2 _].
      rewrite E2. reflexivity. }
    assert (L : last (map fst ((t, e) :: tes)) (clock (host w))
                = last (map fst tes) (clock (host w2))).
    { rewrite B5, A3. cbn [map fst].
      destruct (map fst tes) as [| z zs]; [reflexivity |].
      change (last (t :: z :: zs) (clock (host w)))
        with (last (z :: zs) (clock (host w))).
      apply last_default. }
    cbv zeta. rewrite E, L.
    destruct (IH w2 (next_id (host w1)) Hw Hs) as [C1 [C2 [C3 [C4 C5]]]].
    + rewrite B1. exact Hg1.
    + rewrite B1. exact Hd1.
    + rewrite B3, B5. reflexivity.
    + exact B4.
    + rewrite B5, A3. exact Hsp.
    + rewrite C1, C2, C3, B1, B2, B6, A5, A6, A4. repeat split; assumption.
Qed.

(** X11. With [stopAtPage], once the guard is set, wheel events that keep
    arriving less than [eventTimeout] apart hold the lock for good: the
    object is unchanged, no hook is called and the stop effect does not
    run.  It runs, and clears the guard, [eventTimeout] after the last
    of them. *)
Theorem lock_held_by_event_stream cfg e0 tes T w :
  0 < eventTimeout cfg ->
  stopAtPage cfg = true ->
  stoppedAtPage (self w) = g_true ->
  truthy_flag (disabled (self w)) = false ->
  owned w ->
  spaced (eventTimeout cfg) (clock (host w)) (map fst tes) ->
  last (map fst tes) (clock (host w)) + eventTimeout cfg <= T ->
  let w1 := after (onScroll cfg e0 ;; run cfg (wheels tes)) w in
  let w2 := after (advance cfg T) w1 in
  self w1 = self w
  /\ hooks w1 = hooks w
  /\ stops (host w1) = stops (host w)
  /\ stoppedAtPage (self w2) = g_null
  /\ stops (host w2) =
     stops (host w) ++ [last (map fst tes) (clock (host w)) + eventTimeout cfg].
Proof.
  intros Hw Hs Hg Hd Ho Hsp HT.
  destruct (onScroll_locked_rearm cfg e0 w Hs Hg Hd Ho)
    as [B1 [B2 [B3 [B4 [B5 B6]]]]].
  destruct (onScroll_locked cfg e0 w Hs Hg) as [_ [_ B0]].
  destruct (bind_after (onScroll cfg e0) (fun _ => run cfg (wheels tes))
              w r_false B0) as [E _].
  set (w0 := after (onScroll cfg e0) w) in *.
  cbv zeta. rewrite E.
  destruct (locked_run cfg tes w0 (next_id (host w)) Hw Hs) as [C1 [C2 [C3 [C4 [n' [C5 C6]]]]]].
  - rewrite B1. exact Hg.
  - rewrite B1. exact Hd.
  - rewrite B3, B5. reflexivity.
  - exact B4.
  - rewrite B5. exact Hsp.
  - set (w1 := after (run cfg (wheels tes)) w0) in *.
    assert (Hc : clock (host w1) <= clock (host w1) + eventTimeout cfg <= T)
      by (rewrite C4, B5; lia).
    destruct (advance_fires cfg T w1 n' _ C5 Hc) as [D1 [D2 [D3 [D4 _]]]].
    rewrite C1, C2, C3, B1, B2, B6, D2, D4, C3, B6, C4, B5.
    repeat split; reflexivity.
Qed.

Lemma lock_held_by_event_stream_witness :
  let cfg := fst (construct two_pages_locking 0) in
  let w := after (gotoPage 1) (snd (construct two_pages_locking 0)) in
  let tes := [(40, wheel 120); (110, wheel 120); (190, wheel 60)] in
  let w1 := after (onScroll cfg (wheel 120) ;; run cfg (wheels tes)) w in
  0 < eventTimeout cfg
  /\ stopAtPage cfg = true
  /\ stoppedAtPage (self w) = g_true
  /\ truthy_flag (disabled (self w)) = false
  /\ owned w
  /\ spaced (eventTimeout cfg) (clock (host w)) (map fst tes)
  /\ last (map fst tes) (clock (host w)) + eventTimeout cfg <= 300
  /\ self w1 = self w
  /\ stoppedAtPage (self (after (advance cfg 300) w1)) = g_null.
Proof.
  assert (H6 : spaced (eventTimeout (fst (construct two_pages_locking 0)))
                 (clock (host (after (gotoPage 1)
                                 (snd (construct two_pages_locking 0)))))
                 (map fst [(40, wheel 120); (110, wheel 120); (190, wheel 60)]))
    by (cbn; lia).
  assert (H7 : last (map fst [(40, wheel 120); (110, wheel 120); (190, wheel 60)])
                 (clock (host (after (gotoPage 1)
                                 (snd (construct two_pages_locking 0)))))
               + eventTimeout (fst (construct two_pages_locking 0)) <= 300)
    by (cbn; lia).
  split; [reflexivity |]. split; [reflexivity |]. split; [reflexivity |].
  split; [reflexivity |]. split; [exact I |].
  split; [exact H6 |]. split; [exact H7 |].
  destruct (lock_held_by_event_stream (fst (construct two_pages_locking 0))
              (wheel 120) _ 300
              (after (gotoPage 1) (snd (construct two_pages_locking 0)))
              eq_refl eq_refl eq_refl eq_refl I H6 H7) as [R1 [_ [_ [R4 _]]]].
  split; [exact R1 | exact R4].
Defined.

(** ** Disabling in the middle of an easing *)

(** X12. [disable] stops wheel events only: an easing animation that is
    under way goes on, and its next tick still writes the percentage and
    calls the host's [onScroll] hook. *)
Theorem easing_runs_while_disabled cfg t w p :
  timeouts (host w) = [] ->
  percentage (self w) = VNum p ->
  clock (host w) <= t <= clock (host w) + 300 ->
  let id := next_id (host w) in
  let w1 := after (startEasing ;; disable) w in
  let w2 := after (deliver cfg (t, Tick id)) w1 in
  let q := easeOut (IZR (t - clock (host w))) p (- p) 300 in
  handled cfg w1 = false
  /\ percentage (self w2) = VNum q
  /\ calls (host w2) = calls (host w) ++ [onScroll_cb (VNum q) (page (self w))]
  /\ pending id (intervals (host w2)) = true.
Proof.
  expose w. cbn. intros -> -> Ht.
  cbv [deliver advance dispatch fire_timeouts fst snd].
  js_unfold. cbn.
  destruct ei; cbn; rewrite Z.max_r by lia; rewrite pending_app_one; cbn;
    (destruct (Z.ltb_spec 300 (t - ck)); [lia |]); cbn;
    rewrite ?pending_app_one; repeat split; reflexivity.
Qed.

Lemma easing_runs_while_disabled_witness :
  let cfg := fst (construct no_options 0) in
  let w := after (gotoPage 0) (snd (construct no_options 0)) in
  let w1 := after (startEasing ;; disable) w in
  timeouts (host w) = []
  /\ percentage (self w) = VNum 0
  /\ clock (host w) <= 160 <= clock (host w) + 300
  /\ handled cfg w1 = false
  /\ percentage (self (after (deliver cfg (160, Tick (next_id (host w)))) w1))
     = VNum (easeOut (IZR (160 - clock (host w))) 0 (- 0) 300).
Proof.
  split; [reflexivity |]. split; [reflexivity |]. split; [cbn; lia |].
  destruct (easing_runs_while_disabled (fst (construct no_options 0)) 160
              (after (gotoPage 0) (snd (construct no_options 0))) 0)
    as [H1 [H2 _]]; [reflexivity | reflexivity | cbn; lia |].
  split; [exact H1 | exact H2].
Defined.

(** ** From one gesture to the next *)

(** X13. Without [easeBack] the stop effect zeroes [delta] but leaves
    [percentage] where the gesture ended.  The next handled event starts
    a new gesture: the [onScrollStart] hook receives that left-over
    percentage, and the travel restarts from the event's own delta. *)
Theorem next_gesture_reports_old_percentage cfg e w :
  easeBack cfg = false ->
  truthy_flag (disabled (self w)) = false ->
  let w1 := after (later (onScrollStop cfg)) w in
  let w2 := after (onScroll cfg e) w1 in
  percentage (self w1) = percentage (self w)
  /\ delta (self w1) = 0%R
  /\ scrolling (self w1) = false
  /\ delta (self w2) = (0 + e (direction cfg))%R
  /\ exists rest,
       calls (host w2) =
       calls (host w1)
       ++ preventDefault
          :: onScrollStart_cb (percentage (self w)) (page (self w)) :: rest.
Proof.
  intros Hb. expose w. cbn. intros Hd. js_unfold. cbn.
  rewrite Hb. destruct gd; cbn; rewrite Hd; cbn;
    rewrite andb_false_r; cbn;
    destruct tm; cbn; js_cases;
    (split; [reflexivity |]; split; [reflexivity |];
     split; [reflexivity |]; split; [reflexivity |];
     eexists; rewrite <- !app_assoc; cbn; reflexivity).
Qed.

Lemma next_gesture_reports_old_percentage_witness :
  let cfg := fst (construct two_pages 0) in
  let w := after (onScroll cfg (wheel 300)) (snd (construct two_pages 0)) in
  let w1 := after (later (onScrollStop cfg)) w in
  let w2 := after (onScroll cfg (wheel 50)) w1 in
  easeBack cfg = false
  /\ truthy_flag (disabled (self w)) = false
  /\ percentage (self w1) = percentage (self w)
  /\ delta (self w2) = (0 + wheel 50 (direction cfg))%R.
Proof.
  split; [reflexivity |].
  assert (Hd : truthy_flag
                 (disabled
                    (self (after (onScroll (fst (construct two_pages 0)) (wheel 300))
                             (snd (construct two_pages 0))))) = false).
  { js_start. js_unfold. cbn. js_cases; reflexivity. }
  split; [exact Hd |].
  destruct (next_gesture_reports_old_percentage (fst (construct two_pages 0))
              (wheel 50)
              (after (onScroll (fst (construct two_pages 0)) (wheel 300))
                 (snd (construct two_pages 0))) eq_refl Hd)
    as [H1 [_ [_ [H4 _]]]].
  split; [exact H1 | exact H4].
Defined.

(** ** Merging options *)

(** X14. [extend] with an empty options object returns the settings as
    they are, and extending twice with the same options is the same as
    extending once: a key given in the options replaces the setting,
    a key left out keeps it. *)
Theorem extend_laws (a : Settings) (b : Options) :
  extend a no_options = a
  /\ extend (extend a b) b = extend a b.
Proof.
  split; [destruct a; reflexivity |].
  destruct a, b as [o1 o2 o3 o4 o5 o6 o7].
  destruct o1, o2, o3, o4, o5, o6, o7; reflexivity.
Qed.

(** ** Disabling and enabling *)

(** X15. [disable] followed by [enable] changes nothing but the flag: a
    controller that was not disabled treats the next wheel event exactly
    as it would have, with the same result, the same calls and the same
    object apart from [disabled]. *)
Theorem disable_enable_round_trip cfg e w :
  truthy_flag (disabled (self w)) = false ->
  let w' := after (disable ;; enable) w in
  outcome (onScroll cfg e) w' = outcome (onScroll cfg e) w
  /\ calls (host (after (onScroll cfg e) w'))
     = calls (host (after (onScroll cfg e) w))
  /\ self (after (onScroll cfg e) w')
     = set_disabled (Some false) (self (after (onScroll cfg e) w))
  /\ timeouts (host (after (onScroll cfg e) w'))
     = timeouts (host (after (onScroll cfg e) w)).
Proof.
  expose w. cbn. intros Hd. js_unfold. cbn. rewrite Hd. cbn.
  destruct tm; cbn; js_cases; repeat split; reflexivity.
Qed.

Lemma disable_enable_round_trip_witness :
  let cfg := fst (construct two_pages 0) in
  let w := snd (construct two_pages 0) in
  let w' := after (disable ;; enable) w in
  truthy_flag (disabled (self w)) = false
  /\ outcome (onScroll cfg (wheel 120)) w' = outcome (onScroll cfg (wheel 120)) w
  /\ calls (host (after (onScroll cfg (wheel 120)) w'))
     = calls (host (after (onScroll cfg (wheel 120)) w)).
Proof.
  split; [reflexivity |].
  destruct (disable_enable_round_trip (fst (construct two_pages 0)) (wheel 120)
              (snd (construct two_pages 0)) eq_refl) as [H1 [H2 _]].
  split; [exact H1 | exact H2].
Defined.
